(** * c.py: the ResNet50 prediction service

    A shallow embedding of [src/c.py]: the label table, the module-level
    model loading, [predict_image] with its threshold loop, and the Flask
    handler [predict] of [POST /predict].  Library code (PIL, torch,
    torchvision, Flask) is not part of the repository: it appears as the
    members of a class [Libraries], or as small models of its documented
    behaviour ([jsonify], Python's floats and [round]). *)

From Stdlib Require Import QArith Qround Qabs Lqa ZArith Lia.
From stdpp Require Import gmap strings list pretty sorting.

Set Warnings "-register-all".
Local Open Scope Z_scope.

(** ** Python floats

    A Python [float] is an IEEE 754 binary64 number.  A finite value is kept
    as the rational it denotes; the two signed zeros are identified (no
    operation of the source tells them apart). *)
Module PyFloat.

Inductive pyfloat : Type :=
  | NaN : pyfloat
  | Inf (negative : bool) : pyfloat
  | Fin (q : Q) : pyfloat.

(** [2 ^ k] for an integer exponent of either sign. *)
Definition pow2 (k : Z) : Q :=
  match k with
  | Z0 => 1%Q
  | Zpos p => inject_Z (Z.pow_pos 2 p)
  | Zneg p => (1 # Pos.pow 2 p)%Q
  end.

(** [floor (log2 q)] for [q > 0]. *)
Definition ilog2 (q : Q) : Z :=
  let k := Z.log2 (Qnum q) - Z.log2 (Zpos (Qden q)) in
  if Qle_bool (pow2 k) q then k else k - 1.

(** Round to the nearest integer, ties to the even one. *)
Definition rhe (q : Q) : Z :=
  let f := Qfloor q in
  let r := (q - inject_Z f)%Q in
  match Qcompare r (1 # 2) with
  | Lt => f
  | Gt => f + 1
  | Eq => if Z.even f then f else f + 1
  end.

(** Round a real number to binary64, to nearest, ties to even: 53
    significant bits, smallest exponent [-1074], overflow to an infinity. *)
Definition rnd64 (q : Q) : pyfloat :=
  if Qeq_bool q 0 then Fin 0
  else
    let e := Z.max (ilog2 (Qabs q) - 52) (-1074) in
    let m := rhe (q / pow2 e) in
    let r := Qred (inject_Z m * pow2 e) in
    if Qle_bool (pow2 1024) (Qabs r) then Inf (Qnum q <? 0) else Fin r.

(** [a <= b] and [a < b] of Python: false as soon as one side is a NaN. *)
Definition fle (a b : pyfloat) : bool :=
  match a, b with
  | NaN, _ | _, NaN => false
  | Inf true, _ => true
  | _, Inf false => true
  | Inf false, _ => false
  | _, Inf true => false
  | Fin p, Fin q => Qle_bool p q
  end.

Definition flt (a b : pyfloat) : bool :=
  match a, b with
  | NaN, _ | _, NaN => false
  | Inf true, Inf true => false
  | Inf false, Inf false => false
  | Inf true, _ => true
  | _, Inf false => true
  | Inf false, _ => false
  | _, Inf true => false
  | Fin p, Fin q => Qle_bool p q && negb (Qeq_bool p q)
  end.

(** [a * b] of Python. *)
Definition fmul (a b : pyfloat) : pyfloat :=
  match a, b with
  | NaN, _ | _, NaN => NaN
  | Inf s, Inf t => Inf (xorb s t)
  | Inf s, Fin q | Fin q, Inf s =>
      if Qeq_bool q 0 then NaN else Inf (xorb s (Qnum q <? 0))
  | Fin p, Fin q => rnd64 (p * q)
  end.

(** A decimal literal of the source text denotes the nearest double. *)
Definition literal (q : Q) : pyfloat := rnd64 q.

(** [round(x, 1)] of Python: the exact value of [x] is rounded to the
    nearest multiple of one tenth, ties to even, and the double nearest to
    that decimal is returned; a NaN or an infinity rounds to itself. *)
Definition round1 (x : pyfloat) : pyfloat :=
  match x with
  | Fin q => rnd64 (inject_Z (rhe (q * 10)) / 10)
  | _ => x
  end.

(** The double nearest to [n] tenths: what [round(x, 1)] returns when the
    multiple of one tenth nearest to [x] is [n / 10]. *)
Definition tenths (n : Z) : pyfloat := rnd64 (inject_Z n / 10).

End PyFloat.
Export PyFloat.

(** ** Python values, exceptions and results *)

(** The values the service builds and hands to [jsonify]. *)
Inductive pyobj : Type :=
  | VBool (b : bool)
  | VFloat (x : pyfloat)
  | VStr (s : string)
  | VList (l : list pyobj)
  | VDict (d : list (string * pyobj)).

(** An instance of Python's [Exception]; [str e] is its message. *)
Record Exception : Type := mkException { str_exc : string }.

Inductive result (A : Type) : Type :=
  | Ok (a : A)
  | Raise (e : Exception).
Arguments Ok {A} a.
Arguments Raise {A} e.

#[global] Instance result_ret : MRet result := @Ok.
#[global] Instance result_bind : MBind result := fun A B f m =>
  match m with
  | Ok a => f a
  | Raise e => Raise e
  end.

(** [l[i]] on a one-dimensional tensor or list: out of range raises. *)
Definition item {A} (l : list A) (i : nat) : result A :=
  match l !! i with
  | Some a => Ok a
  | None => Raise (mkException "index out of range")
  end.

(** [str(n)] for a Python [int]. *)
Definition str_int (n : Z) : string := pretty n.

(** [d.get(k, default)]. *)
Definition dict_get (d : gmap string string) (k default : string) : string :=
  match d !! k with
  | Some v => v
  | None => default
  end.

(** ** Configuration and the class table (lines 11-30) *)

Definition MIN_CONFIDENCE : pyfloat := literal (40 # 100).
Definition MAX_CONFIDENCE : pyfloat := literal (100 # 100).

Definition imagenet_classes_items : list (string * string) :=
    [ ("0", "tench"); ("1", "goldfish"); ("2", "great white shark");
      ("3", "tiger shark"); ("4", "hammerhead"); ("5", "electric ray");
      ("6", "stingray"); ("7", "rooster"); ("8", "hen"); ("9", "ostrich");
      ("10", "brambling"); ("11", "goldfinch"); ("99", "goose");
      ("151", "Chihuahua"); ("152", "Japanese spaniel");
      ("153", "Maltese dog"); ("154", "Pekinese"); ("155", "Shih-Tzu");
      ("156", "Blenheim spaniel"); ("157", "papillon");
      ("158", "toy terrier"); ("207", "golden retriever");
      ("208", "Labrador retriever"); ("282", "tiger cat");
      ("283", "Persian cat"); ("284", "Siamese cat"); ("291", "lion");
      ("292", "tiger"); ("293", "cheetah"); ("294", "brown bear");
      ("404", "airliner"); ("407", "ambulance"); ("429", "baseball");
      ("430", "basketball"); ("504", "coffee mug"); ("620", "laptop");
      ("850", "television"); ("858", "toaster"); ("927", "ice cream");
      ("948", "strawberry"); ("949", "orange"); ("950", "lemon");
      ("962", "pizza") ]%string.

Definition imagenet_classes : gmap string string :=
  list_to_map imagenet_classes_items.

(** Line 68: [imagenet_classes.get(class_id, f"Class {class_id}")]. *)
Definition class_name_of (class_id : string) : string :=
  dict_get imagenet_classes class_id ("Class " +:+ class_id).

(** ** The threshold loop of [predict_image] (lines 63-75)

    [top_probs] and [top_ids] are the two one-dimensional tensors returned
    by [torch.topk]; [range] is what is left of [range(top_probs.size(0))];
    [predictions] is the list built so far. *)
Fixpoint threshold_loop (top_probs : list pyfloat) (top_ids : list Z)
    (range : list nat) (predictions : list pyobj) : result (list pyobj) :=
  match range with
  | [] => Ok predictions
  | i :: range' =>
      conf ← item top_probs i;
      if fle MIN_CONFIDENCE conf && fle conf MAX_CONFIDENCE then
        id ← item top_ids i;
        let class_id := str_int id in
        let class_name := class_name_of class_id in
        let conf_percent := round1 (fmul conf (Fin 100)) in
        threshold_loop top_probs top_ids range'
          (predictions ++
             [VDict [("class"%string, VStr class_name);
                     ("confidence"%string, VFloat conf_percent)]])
      else if flt conf MIN_CONFIDENCE then Ok predictions
      else threshold_loop top_probs top_ids range' predictions
  end.


(** ** The libraries

    PIL, torchvision, torch and the Python runtime are not part of the
    repository.  The service is written against this interface; nothing is
    assumed of its members beyond their types. *)

(** An [io.BytesIO] object: where it lives ([id]), and what it holds. *)
Record BytesIO : Type :=
  mkBytesIO { address : N; getvalue : list Byte.byte }.

(** A [torch.nn.Module]: its mode flag and its parameters and buffers. *)
Record nn_Module (Weights : Type) : Type :=
  mkModule { training : bool; weights : Weights }.
Arguments mkModule {Weights} training weights.
Arguments training {Weights} _.
Arguments weights {Weights} _.

(** [m.eval()]: leave training mode; the object itself is returned. *)
Definition Module_eval {Weights} (m : nn_Module Weights) : nn_Module Weights :=
  mkModule false (weights m).

Class Libraries : Type := {
  Image : Type;
  Tensor : Type;
  Weights : Type;
  Rng : Type;
  (** The identities CPython gives to new objects: the address of the next
      one, and what is left. *)
  Ids : Type;
  fresh_id : Ids -> N * Ids;
  (** [print(s)]: writing to the standard output may raise. *)
  print : string -> result unit;
  (** [Image.open(buf).convert('RGB')] on a buffer [buf]; the message of
      the error it raises may name the buffer. *)
  Image_open_convert : BytesIO -> result Image;
  (** [preprocess(img).unsqueeze(0).to(DEVICE)]. *)
  preprocess : Image -> result Tensor;
  (** The forward pass of a module in evaluation mode: a function of the
      parameters and the input. *)
  forward_eval : Weights -> Tensor -> result Tensor;
  (** The forward pass in training mode: it also updates the buffers of the
      module (batch statistics) and may draw random numbers. *)
  forward_train : Weights -> Rng -> Tensor -> result Tensor * Weights * Rng;
  (** [torch.nn.functional.softmax(outputs[0], dim=0)]. *)
  softmax0 : Tensor -> result Tensor;
  (** [torch.topk(probs, k)]: the values and the indices, as Python reads
      them with [.item()]. *)
  topk : Tensor -> nat -> result (list pyfloat * list Z);
  (** [models.resnet50(weights=models.ResNet50_Weights.DEFAULT)] and
      [models.resnet50(pretrained=True)]. *)
  resnet50_default : result (nn_Module Weights);
  resnet50_pretrained : result (nn_Module Weights);
  (** [m.to(DEVICE)] moves the parameters and returns the module. *)
  to_DEVICE : Weights -> Weights
}.

(** What a request can see and change: the module-level [model], the random
    generator of torch, a ghost list [invoked] of the arguments
    [predict_image] has been entered with, and the identities of the
    buffers to come. *)
Record World `{Libraries} : Type :=
  mkWorld { model : nn_Module Weights; rng : Rng;
            invoked : list (list Byte.byte); ids : Ids }.

(** An uploaded file of [request.files], and the request. *)
Record FileStorage : Type := mkFile { filename : string; read : list Byte.byte }.
Record Request : Type := mkRequest { files : gmap string FileStorage }.

(** A Flask response. *)
Record Response : Type := mkResponse { status : Z; json_body : pyobj }.

(** [jsonify(d)]: a response of status 200 whose body is [d]. *)
Definition jsonify (d : pyobj) : Response := mkResponse 200 d.

(** ** The service *)

Section Service.

Context `{Libraries}.

Definition Module_to (m : nn_Module Weights) : nn_Module Weights :=
  mkModule (training m) (to_DEVICE (weights m)).

(** Lines 32-42: the module-level loading of [model], with its prints and
    its fallback.  The print of line 37 stands inside the [try]: when it
    raises, the fallback runs although the first call has loaded a model.
    [Raise] means that the import of the script fails. *)
Definition load_model : result (nn_Module Weights) :=
  _ ← print "Loading ResNet50 model...";
  match
    (model ← resnet50_default;
     let model := Module_to model in
     let model := Module_eval model in
     _ ← print "✅ Model loaded successfully!";
     mret model)
  with
  | Ok model => Ok model
  | Raise e =>
      _ ← print ("Error loading model: " +:+ str_exc e);
      model ← resnet50_pretrained;
      let model := Module_to model in
      mret (Module_eval model)
  end.

(** Computations of a request: they read and write the world and may
    raise. *)
Definition M (A : Type) : Type := World -> result A * World.

#[global] Instance M_ret : MRet M := fun A a w => (Ok a, w).
#[global] Instance M_bind : MBind M := fun A B f m w =>
  match m w with
  | (Ok a, w') => f a w'
  | (Raise e, w') => (Raise e, w')
  end.

Definition lift {A} (r : result A) : M A := fun w => (r, w).

(** [try: body except Exception as e: handler e]. *)
Definition try_except {A} (body : M A) (handler : Exception -> M A) : M A :=
  fun w =>
    match body w with
    | (Ok a, w') => (Ok a, w')
    | (Raise e, w') => handler e w'
    end.

(** [model(img_tensor)]. *)
Definition model_call (img_tensor : Tensor) : M Tensor := fun w =>
  let m := model w in
  if training m then
    let '(r, ws, g) := forward_train (weights m) (rng w) img_tensor in
    (r, mkWorld _ (mkModule true ws) g (invoked w) (ids w))
  else (forward_eval (weights m) img_tensor, w).

(** Ghost step: note that [predict_image] was entered. *)
Definition enter (image_bytes : list Byte.byte) : M unit := fun w =>
  (Ok tt, mkWorld _ (model w) (rng w) (invoked w ++ [image_bytes]) (ids w)).

(** [io.BytesIO(b)]: a new buffer holding [b]. *)
Definition io_BytesIO (b : list Byte.byte) : M BytesIO := fun w =>
  let '(a, rest) := fresh_id (ids w) in
  (Ok (mkBytesIO a b), mkWorld _ (model w) (rng w) (invoked w) rest).

(** Lines 54-77: the body of the [try] of [predict_image]. *)
Definition predict_image_try (image_bytes : list Byte.byte) : M (list pyobj) :=
  buf ← io_BytesIO image_bytes;
  img ← lift (Image_open_convert buf);
  img_tensor ← lift (preprocess img);
  outputs ← model_call img_tensor;
  probs ← lift (softmax0 outputs);
  '(top_probs, top_ids) ← lift (topk probs 50%nat);
  let predictions := [] in
  lift (threshold_loop top_probs top_ids
          (seq 0 (length top_probs)) predictions).

(** Lines 51-79. *)
Definition predict_image (image_bytes : list Byte.byte) : M (list pyobj) :=
  _ ← enter image_bytes;
  try_except (predict_image_try image_bytes)
    (fun e => lift (Raise (mkException ("Error: " +:+ str_exc e)))).

(** [request.files['file']]. *)
Definition getitem (d : gmap string FileStorage) (k : string)
    : result FileStorage :=
  match d !! k with
  | Some v => Ok v
  | None => Raise (mkException "400 Bad Request: KeyError")
  end.

(** Lines 85-100: the view function of [POST /predict]. *)
Definition predict (request : Request) : M Response :=
  try_except
    (if negb (bool_decide ("file"%string ∈ dom (files request))) then
       mret (jsonify (VDict [("success"%string, VBool false);
                             ("error"%string, VStr "No file uploaded")]))
     else
       file ← lift (getitem (files request) "file");
       if String.eqb (filename file) "" then
         mret (jsonify (VDict [("success"%string, VBool false);
                               ("error"%string, VStr "No file selected")]))
       else
         let image_bytes := read file in
         predictions ← predict_image image_bytes;
         mret (jsonify (VDict [("success"%string, VBool true);
                               ("predictions"%string, VList predictions)])))
    (fun e =>
       mret (jsonify (VDict [("success"%string, VBool false);
                             ("error"%string, VStr (str_exc e))]))).

End Service.

(** ** Notions the statements use *)

(** The test of line 66: [MIN_CONFIDENCE <= conf <= MAX_CONFIDENCE]. *)
Definition in_band (conf : pyfloat) : bool :=
  fle MIN_CONFIDENCE conf && fle conf MAX_CONFIDENCE.

(** The dictionary of lines 70-73 for the ranked entry [(conf, id)]. *)
Definition entry (p : pyfloat * Z) : pyobj :=
  VDict [("class"%string, VStr (class_name_of (str_int p.2)));
         ("confidence"%string, VFloat (round1 (fmul p.1 (Fin 100))))].

(** The loop read over the list of ranked entries: keep an entry of the
    band, stop at an entry below [MIN_CONFIDENCE], skip any other. *)
Fixpoint scan (ranked : list (pyfloat * Z)) : list pyobj :=
  match ranked with
  | [] => []
  | p :: rest =>
      if in_band p.1 then entry p :: scan rest
      else if flt p.1 MIN_CONFIDENCE then []
      else scan rest
  end.

(** Descending order: every value is at least each later one. *)
Definition descending (l : list pyfloat) : Prop :=
  StronglySorted (fun a b => fle b a = true) l.

(** The same, as a test that runs. *)
Fixpoint descendingb (l : list pyfloat) : bool :=
  match l with
  | [] => true
  | a :: rest => forallb (fun b => fle b a) rest && descendingb rest
  end.

Section Notions.

Context `{Libraries}.

(** The library calls of lines 54-61 succeed on [image_bytes] in the world
    [w] entered by [predict_image]: the image decodes, the forward pass
    runs, and [torch.topk] returns [top_probs] and [top_ids], leaving the
    world [w']. *)
Definition ranks (image_bytes : list Byte.byte) (w : World)
    (top_probs : list pyfloat) (top_ids : list Z) (w' : World) : Prop :=
  exists buf w1 img img_tensor outputs probs,
    io_BytesIO image_bytes (enter image_bytes w).2 = (Ok buf, w1) /\
    Image_open_convert buf = Ok img /\
    preprocess img = Ok img_tensor /\
    model_call img_tensor w1 = (Ok outputs, w') /\
    softmax0 outputs = Ok probs /\
    topk probs 50%nat = Ok (top_probs, top_ids).

(** The failure response of the handler with message [msg]. *)
Definition failure (msg : string) : Response :=
  mkResponse 200 (VDict [("success"%string, VBool false);
                         ("error"%string, VStr msg)]).

(** The error paths of [POST /predict], with the exception message each
    one reports. *)
Inductive error_path (request : Request) (w : World) : string -> Prop :=
  | missing_field :
      files request !! "file"%string = None ->
      error_path request w "No file uploaded"
  | empty_filename file :
      files request !! "file"%string = Some file ->
      filename file = ""%string ->
      error_path request w "No file selected"
  | decode_failure file buf w1 e :
      files request !! "file"%string = Some file ->
      filename file <> ""%string ->
      io_BytesIO (read file) (enter (read file) w).2 = (Ok buf, w1) ->
      Image_open_convert buf = Raise e ->
      error_path request w ("Error: " +:+ str_exc e)
  | inference_failure file buf w1 img e :
      files request !! "file"%string = Some file ->
      filename file <> ""%string ->
      io_BytesIO (read file) (enter (read file) w).2 = (Ok buf, w1) ->
      Image_open_convert buf = Ok img ->
      (predict_image_try (read file) (enter (read file) w).2).1 = Raise e ->
      error_path request w ("Error: " +:+ str_exc e).

(** PIL decodes what a buffer holds: whether it decodes, and the image,
    do not depend on where the buffer lives.  (The text of the error
    does.) *)
Definition decodes_by_content : Prop :=
  forall a a' b,
    match Image_open_convert (mkBytesIO a b),
          Image_open_convert (mkBytesIO a' b) with
    | Ok img, Ok img' => img = img'
    | Raise _, Raise _ => True
    | _, _ => False
    end.

End Notions.

(** ** A small instance of the libraries, to run the service on *)

(** Images are their bytes (no byte at all does not decode, and the error
    names the buffer as PIL does); buffers are sixteen addresses apart; a
    tensor is a list of scores, one hundredth per unit of a byte; the
    network and the softmax pass the scores on; [topk] sorts them. *)
Definition demo_open (buf : BytesIO) : result (list Byte.byte) :=
  match getvalue buf with
  | [] =>
      Raise (mkException
               ("cannot identify image file <_io.BytesIO object at " +:+
                pretty (address buf) +:+ ">"))
  | b => Ok b
  end.

Definition demo_preprocess (img : list Byte.byte) : result (list pyfloat) :=
  Ok ((fun x => Fin (Z.of_N (Byte.to_N x) # 100)) <$> img).

Definition outranks (a b : pyfloat * Z) : Prop := fle b.1 a.1 = true.

#[local] Instance outranks_dec (a b : pyfloat * Z) : Decision (outranks a b) :=
  decide (fle b.1 a.1 = true).

Definition demo_topk (t : list pyfloat) (k : nat)
    : result (list pyfloat * list Z) :=
  if decide (k <= length t)%nat then
    let ranked :=
      merge_sort outranks
        (zip t (Z.of_nat <$> seq 0 (length t))) in
    Ok ((take k ranked).*1, (take k ranked).*2)
  else Raise (mkException "selected index k out of range").

Definition demo : Libraries := {|
  Image := list Byte.byte;
  Tensor := list pyfloat;
  Weights := unit;
  Rng := nat;
  Ids := N;
  fresh_id := fun n => (n, (n + 16)%N);
  print := fun _ => Ok tt;
  Image_open_convert := demo_open;
  preprocess := demo_preprocess;
  forward_eval := fun _ t => Ok t;
  forward_train := fun ws g t => (Ok t, ws, S g);
  softmax0 := Ok;
  topk := demo_topk;
  resnet50_default :=
    Raise (mkException "got an unexpected keyword argument 'weights'");
  resnet50_pretrained := Ok (mkModule true tt);
  to_DEVICE := fun ws => ws
|}.

Definition demo_world : @World demo :=
  mkWorld demo (mkModule false tt) 0%nat [] 4096%N.

(** Thirty dim scores, 0.45, 0.90, eighteen dim scores. *)
Definition demo_image : list Byte.byte :=
  (repeat Byte.x01 30 ++ [Byte.x2d; Byte.x5a] ++ repeat Byte.x01 18)%list.

(** Fifty scores of 0.16. *)
Definition demo_dim_image : list Byte.byte := repeat Byte.x10 50.

(** A score of 2.00, one of 0.50, forty-eight dim scores. *)
Definition demo_hot_image : list Byte.byte :=
  ([Byte.xc8; Byte.x32] ++ repeat Byte.x01 48)%list.

Definition demo_upload (name : string) (b : list Byte.byte) : Request :=
  mkRequest {[ "file"%string := mkFile name b ]}.

(** What [torch.topk] answers for the image [b] in the instance. *)
Definition demo_ranking (b : list Byte.byte) : list pyfloat * list Z :=
  match t ← demo_preprocess b; demo_topk t 50 with
  | Ok r => r
  | Raise _ => ([], [])
  end.

(** The world after one call of [predict_image] on [b] from [demo_world]. *)
Definition demo_after (b : list Byte.byte) : @World demo :=
  mkWorld demo (mkModule false tt) 0%nat [b] 4112%N.

(** ** Further notions: the rest of the script, and readings of the loop *)

(** Line 69: the percentage reported for a probability. *)
Definition conf_percent (conf : pyfloat) : pyfloat :=
  round1 (fmul conf (Fin 100)).

(** The ranked entries the loop visits before it breaks: those in front of
    the first one below [MIN_CONFIDENCE]. *)
Fixpoint before_exit (ranked : list (pyfloat * Z)) : list (pyfloat * Z) :=
  match ranked with
  | [] => []
  | p :: rest =>
      if flt p.1 MIN_CONFIDENCE then [] else p :: before_exit rest
  end.

(** The exact sum of a list of rationals. *)
Definition Qsum (qs : list Q) : Q := foldr Qplus 0%Q qs.

(** [d[k]] read off a dictionary value, and the [confidence] fields of a
    list of predictions. *)
Fixpoint dict_lookup (k : string) (d : list (string * pyobj)) : option pyobj :=
  match d with
  | [] => None
  | (k', v) :: d' => if String.eqb k k' then Some v else dict_lookup k d'
  end.

Definition confidence_of (p : pyobj) : option pyfloat :=
  match p with
  | VDict d =>
      match dict_lookup "confidence" d with
      | Some (VFloat x) => Some x
      | _ => None
      end
  | _ => None
  end.

(** The members of the script that are not the prediction service: the
    text bound to [HTML_TEMPLATE] by lines 106-523, Flask's
    [render_template_string], and Python's [int] on a [str]. *)
Class Page : Type := {
  HTML_TEMPLATE_text : string;
  render_template_string : string -> result string;
  int_of_str : string -> result Z
}.

Section Script.

Context `{Libraries} `{Page}.

(** The module-level names a request handler reads. *)
Record Namespace : Type :=
  mkNamespace { ns_model : nn_Module Weights; ns_HTML_TEMPLATE : option string }.

(** How the module ends up serving: [Served] by its own [app.run] of line
    104, which does not return while the server runs, or [Imported] by a
    server that executed the whole file. *)
Inductive Run : Type :=
  | Served (port : Z) (ns : Namespace)
  | Imported (ns : Namespace).

(** Lines 9-106, top to bottom, under the module name [dunder_name] and
    the environment [environ].  [HTML_TEMPLATE] is assigned by line 106,
    after the [if __name__ == '__main__'] block of lines 102-104. *)
Definition run_module (dunder_name : string) (environ : gmap string string)
    : result Run :=
  model ← load_model;
  if String.eqb dunder_name "__main__" then
    port ← match environ !! "PORT"%string with
           | Some s => int_of_str s
           | None => Ok 5000
           end;
    mret (Served port (mkNamespace model None))
  else
    mret (Imported (mkNamespace model (Some HTML_TEMPLATE_text))).

(** Lines 81-83: the view of [GET /].  Reading an unbound global raises
    [NameError]; a returned string becomes a response of status 200. *)
Definition index (ns : Namespace) : result Response :=
  match ns_HTML_TEMPLATE ns with
  | None => Raise (mkException "name 'HTML_TEMPLATE' is not defined")
  | Some template =>
      html ← render_template_string template;
      mret (mkResponse 200 (VStr html))
  end.

(** The status Flask answers with: that of the response a view returns,
    500 when an exception escapes the view. *)
Definition flask_status (view : result Response) : Z :=
  match view with
  | Ok resp => status resp
  | Raise _ => 500
  end.

(** The worlds a served application goes through: the one it starts in,
    and the one each handled [POST /predict] leaves. *)
Inductive served_from (w0 : World) : World -> Prop :=
  | served_start : served_from w0 w0
  | served_request w request :
      served_from w0 w -> served_from w0 (predict request w).2.

End Script.

(** An instance whose [topk] takes the first [k] scores as they come, and
    an instance of the page. *)
Definition demo_raw_topk (t : list pyfloat) (k : nat)
    : result (list pyfloat * list Z) :=
  if decide (k <= length t)%nat then
    Ok (take k t, Z.of_nat <$> seq 0 k)
  else Raise (mkException "selected index k out of range").

Definition demo_raw : Libraries := {|
  Image := list Byte.byte;
  Tensor := list pyfloat;
  Weights := unit;
  Rng := nat;
  Ids := N;
  fresh_id := fun n => (n, (n + 16)%N);
  print := fun _ => Ok tt;
  Image_open_convert := demo_open;
  preprocess := demo_preprocess;
  forward_eval := fun _ t => Ok t;
  forward_train := fun ws g t => (Ok t, ws, S g);
  softmax0 := Ok;
  topk := demo_raw_topk;
  resnet50_default := Ok (mkModule true tt);
  resnet50_pretrained :=
    Raise (mkException "got an unexpected keyword argument 'pretrained'");
  to_DEVICE := fun ws => ws
|}.

Definition demo_page : Page := {|
  HTML_TEMPLATE_text := "<!DOCTYPE html>";
  render_template_string := Ok;
  int_of_str := fun s =>
    if String.eqb s "8080" then Ok 8080
    else Raise (mkException "invalid literal for int() with base 10")
|}.

(** Scores 0.50, 2.00, 0.30, 0.90, then forty-six dim scores. *)
Definition demo_mixed_image : list Byte.byte :=
  ([Byte.x32; Byte.xc8; Byte.x1e; Byte.x5a] ++ repeat Byte.x01 46)%list.

(** Scores 0.45 and 0.45, then forty-eight scores of 0.00. *)
Definition demo_split_image : list Byte.byte :=
  ([Byte.x2d; Byte.x2d] ++ repeat Byte.x00 48)%list.

Definition demo_raw_world : @World demo_raw :=
  mkWorld demo_raw (mkModule false tt) 0%nat [] 4096%N.

Definition demo_raw_after (b : list Byte.byte) : @World demo_raw :=
  mkWorld demo_raw (mkModule false tt) 0%nat [b] 4112%N.

(** What [topk] answers for the image [b] in the instance that does not
    sort. *)
Definition demo_raw_ranking (b : list Byte.byte) : list pyfloat * list Z :=
  match t ← demo_preprocess b; demo_raw_topk t 50 with
  | Ok r => r
  | Raise _ => ([], [])
  end.

(** The scores of [demo_split_image], as rationals. *)
Definition demo_split_scores : list Q :=
  ([45 # 100; 45 # 100] ++ repeat (0 # 100) 48)%Q.

(** Discharges [ranks] on a concrete upload of the instance. *)
Ltac ranked_by_computation :=
  unfold ranks; eexists _, _, _, _, _, _;
  repeat split; vm_compute; reflexivity.

(** * Facts about the float model *)

Section FloatFacts.

Local Open Scope Q_scope.

Lemma Qle_bool_false (x y : Q) : Qle_bool x y = false <-> y < x.
Proof.
  split; intros H.
  - apply Qnot_le_lt. intros Hle. apply Qle_bool_iff in Hle. congruence.
  - destruct (Qle_bool x y) eqn:E; [|reflexivity].
    apply Qle_bool_iff in E. exfalso. exact (Qlt_not_le _ _ H E).
Qed.

Lemma Qeq_bool_false (x y : Q) : Qeq_bool x y = false <-> ~ x == y.
Proof.
  split; intros H.
  - intros Heq. apply Qeq_bool_iff in Heq. congruence.
  - destruct (Qeq_bool x y) eqn:E; [|reflexivity].
    apply Qeq_bool_iff in E. contradiction.
Qed.

Lemma flt_Fin (p q : Q) : flt (Fin p) (Fin q) = true <-> p < q.
Proof.
  simpl. rewrite andb_true_iff, negb_true_iff, Qle_bool_iff, Qeq_bool_false.
  split.
  - intros [Hle Hne]. apply Qle_lteq in Hle. tauto.
  - intros Hlt. split; [apply Qlt_le_weak, Hlt|].
    intros Heq. rewrite Heq in Hlt. exact (Qlt_irrefl _ Hlt).
Qed.

Lemma fle_Fin (p q : Q) : fle (Fin p) (Fin q) = true <-> p <= q.
Proof. simpl. apply Qle_bool_iff. Qed.

(** [a < m] excludes [m <= a]. *)
Lemma flt_fle_false (a m : pyfloat) : flt a m = true -> fle m a = false.
Proof.
  destruct a as [|[]|p], m as [|[]|q]; simpl; try congruence.
  intros H. apply (proj1 (flt_Fin p q)) in H.
  apply Qle_bool_false, H.
Qed.

(** Below something that is below [m] is below [m]. *)
Lemma fle_flt_trans (b a m : pyfloat) :
  fle b a = true -> flt a m = true -> flt b m = true.
Proof.
  destruct b as [|[]|r], a as [|[]|p], m as [|[]|q]; simpl; try congruence.
  intros H1 H2. apply Qle_bool_iff in H1.
  apply (proj1 (flt_Fin p q)) in H2. apply (proj2 (flt_Fin r q)).
  eapply Qle_lt_trans; eassumption.
Qed.

(** *** Rounding to an integer *)

Lemma rhe_floor (q : Q) : rhe q = Qfloor q \/ rhe q = (Qfloor q + 1)%Z.
Proof.
  unfold rhe. destruct (_ ?= _); [destruct (Z.even _)|..]; auto.
Qed.

Lemma rhe_ge (n : Z) (q : Q) : inject_Z n <= q -> (n <= rhe q)%Z.
Proof.
  intros H. apply Qfloor_resp_le in H. rewrite Qfloor_Z in H.
  destruct (rhe_floor q) as [-> | ->]; lia.
Qed.

Lemma rhe_le (n : Z) (q : Q) : q <= inject_Z n -> (rhe q <= n)%Z.
Proof.
  intros H. pose proof (Qfloor_resp_le _ _ H) as Hf. rewrite Qfloor_Z in Hf.
  destruct (Z.eq_dec (Qfloor q) n) as [E | E].
  - assert (Hr : q - inject_Z (Qfloor q) < 1 # 2).
    { pose proof (Qfloor_le q) as Hq. rewrite E in *. lra. }
    assert (Hc : (q - inject_Z (Qfloor q) ?= 1 # 2) = Lt)
      by (apply Qlt_alt, Hr).
    unfold rhe. cbv zeta. rewrite Hc. lia.
  - destruct (rhe_floor q) as [-> | ->]; lia.
Qed.

(** *** Powers of two and the binary exponent *)

Lemma pow2_nonneg (k : Z) : (0 <= k)%Z -> pow2 k = inject_Z (2 ^ k).
Proof. destruct k; [reflexivity | reflexivity | lia]. Qed.

Lemma pow2_neg (k : Z) : (k < 0)%Z -> pow2 k * inject_Z (2 ^ (- k)) == 1.
Proof.
  destruct k as [|p|p]; [lia | lia |]; intros _.
  change (- Z.neg p)%Z with (Z.pos p). rewrite <- (Pos2Z.inj_pow 2 p).
  unfold pow2, Qeq, Qmult, inject_Z. cbn [Qnum Qden]. lia.
Qed.

Lemma ilog2_binade (k : Z) (q : Q) :
  (0 <= k)%Z -> inject_Z (2 ^ k) <= q -> q < inject_Z (2 ^ (k + 1)) ->
  ilog2 q = k.
Proof.
  intros Hk Hlo Hhi. destruct q as [n d].
  assert (Hp : (0 < 2 ^ k)%Z) by (apply Z.pow_pos_nonneg; lia).
  unfold Qle, Qlt in Hlo, Hhi. simpl in Hlo, Hhi.
  assert (Hn : (0 < n)%Z) by nia.
  assert (H1 : (k + Z.log2 (Z.pos d) <= Z.log2 n)%Z).
  { rewrite <- Z.log2_mul_pow2 by lia.
    apply Z.log2_le_mono. lia. }
  assert (H2 : (Z.log2 n <= k + 1 + Z.log2 (Z.pos d))%Z).
  { rewrite <- Z.log2_mul_pow2 by lia.
    apply Z.log2_le_mono. lia. }
  unfold ilog2. simpl Qnum. simpl Qden.
  destruct (Z.eq_dec (Z.log2 n - Z.log2 (Z.pos d))%Z k) as [E | E].
  - rewrite E, pow2_nonneg by lia.
    replace (Qle_bool (inject_Z (2 ^ k)) (n # d)) with true; [reflexivity|].
    symmetry. apply Qle_bool_iff. unfold Qle. simpl. lia.
  - assert (E' : (Z.log2 n - Z.log2 (Z.pos d) = k + 1)%Z) by lia.
    rewrite E', pow2_nonneg by lia.
    replace (Qle_bool (inject_Z (2 ^ (k + 1))) (n # d)) with false; [lia|].
    symmetry. apply Qle_bool_false. unfold Qlt. simpl. lia.
Qed.

(** *** Rounding to binary64 keeps representable bounds

    Inside the binade [[2^k, 2^(k+1))], [0 <= k < 52], the doubles are the
    multiples of [2^(k-52)]; integers are among them, so rounding cannot
    cross an integer bound. *)
Lemma rnd64_bounds (k lo hi : Z) (q : Q) :
  (0 <= k < 52)%Z -> (2 ^ k <= lo)%Z -> (hi <= 2 ^ (k + 1))%Z ->
  inject_Z lo <= q -> q <= inject_Z hi -> q < inject_Z (2 ^ (k + 1)) ->
  exists r, rnd64 q = Fin r /\ inject_Z lo <= r /\ r <= inject_Z hi.
Proof.
  intros Hk Hlo Hhi Hq1 Hq2 Hq3.
  assert (Hp : (0 < 2 ^ k)%Z) by (apply Z.pow_pos_nonneg; lia).
  assert (Hq0 : 0 < q).
  { eapply Qlt_le_trans; [|exact Hq1]. change 0 with (inject_Z 0).
    rewrite <- Zlt_Qlt. lia. }
  assert (Hqk : inject_Z (2 ^ k) <= q).
  { eapply Qle_trans; [|exact Hq1]. rewrite <- Zle_Qle. lia. }
  unfold rnd64.
  replace (Qeq_bool q 0) with false
    by (symmetry; apply Qeq_bool_false; lra).
  assert (Habs : Qabs q == q) by (apply Qabs_pos; lra).
  rewrite (ilog2_binade k (Qabs q)); [| lia | rewrite Habs; assumption ..].
  rewrite Z.max_l by lia.
  set (e := (k - 52)%Z). set (s := inject_Z (2 ^ (- e))).
  assert (Hs : 0 < s).
  { unfold s. change 0 with (inject_Z 0). rewrite <- Zlt_Qlt.
    apply Z.pow_pos_nonneg; lia. }
  assert (Hps : pow2 e == / s).
  { pose proof (pow2_neg e ltac:(lia)) as H. fold s in H.
    rewrite <- (Qmult_1_l (/ s)), <- H, <- Qmult_assoc, Qmult_inv_r.
    - symmetry. apply Qmult_1_r.
    - lra. }
  assert (Hdiv : q / pow2 e == q * s).
  { unfold Qdiv. rewrite Hps, Qinv_involutive. reflexivity. }
  set (m := rhe (q / pow2 e)).
  assert (Hm1 : (lo * 2 ^ (- e) <= m)%Z).
  { apply rhe_ge. rewrite inject_Z_mult, Hdiv. fold s.
    apply Qmult_le_compat_r; lra. }
  assert (Hm2 : (m <= hi * 2 ^ (- e))%Z).
  { apply rhe_le. rewrite inject_Z_mult, Hdiv. fold s.
    apply Qmult_le_compat_r; lra. }
  rewrite Zle_Qle, inject_Z_mult in Hm1, Hm2.
  fold s in Hm1, Hm2.
  set (r := Qred (inject_Z m * pow2 e)).
  assert (Hr : r == inject_Z m / s).
  { unfold r. rewrite Qred_correct, Hps. reflexivity. }
  assert (Hr1 : inject_Z lo <= r).
  { rewrite Hr. apply Qle_shift_div_l; assumption. }
  assert (Hr2 : r <= inject_Z hi).
  { rewrite Hr. apply Qle_shift_div_r; assumption. }
  replace (Qle_bool (pow2 1024) (Qabs r)) with false; [eauto|].
  symmetry. apply Qle_bool_false.
  assert (Hr0 : 0 <= r).
  { eapply Qle_trans; [|exact Hr1]. change 0 with (inject_Z 0).
    rewrite <- Zle_Qle. lia. }
  rewrite (Qabs_pos r Hr0), pow2_nonneg by lia.
  eapply Qle_lt_trans; [exact Hr2|]. rewrite <- Zlt_Qlt.
  eapply Z.le_lt_trans; [exact Hhi|].
  apply Z.pow_lt_mono_r; lia.
Qed.

Lemma rnd64_40_100 (q : Q) :
  40 <= q -> q <= 100 -> exists r, rnd64 q = Fin r /\ 40 <= r /\ r <= 100.
Proof.
  intros H1 H2. destruct (Qlt_le_dec q 64) as [H | H].
  - destruct (rnd64_bounds 5 40 64 q) as (r & Hr & Hr1 & Hr2).
    + lia.
    + lia.
    + lia.
    + exact H1.
    + apply Qlt_le_weak, H.
    + exact H.
    + exists r. change (inject_Z 40) with 40 in Hr1.
      change (inject_Z 64) with 64 in Hr2. repeat split; [assumption.. | lra].
  - destruct (rnd64_bounds 6 64 100 q) as (r & Hr & Hr1 & Hr2).
    + lia.
    + lia.
    + lia.
    + exact H.
    + exact H2.
    + change (inject_Z (2 ^ (6 + 1))) with 128. lra.
    + exists r. change (inject_Z 64) with 64 in Hr1.
      change (inject_Z 100) with 100 in Hr2. repeat split; [assumption | lra | assumption].
Qed.

Lemma MIN_CONFIDENCE_value :
  MIN_CONFIDENCE = Fin (3602879701896397 # 9007199254740992).
Proof. vm_compute. reflexivity. Qed.

Lemma MAX_CONFIDENCE_value : MAX_CONFIDENCE = Fin 1.
Proof. vm_compute. reflexivity. Qed.

(** Line 69 on a probability that passed the test of line 66. *)
Lemma conf_percent_band (conf : pyfloat) :
  fle MIN_CONFIDENCE conf && fle conf MAX_CONFIDENCE = true ->
  exists (n : Z) (r : Q),
    round1 (fmul conf (Fin 100)) = tenths n /\ (400 <= n <= 1000)%Z /\
    tenths n = Fin r /\ 40 <= r /\ r <= 100.
Proof.
  rewrite MIN_CONFIDENCE_value, MAX_CONFIDENCE_value, andb_true_iff.
  destruct conf as [| [] | c]; simpl; try (intros [? ?]; congruence).
  rewrite !Qle_bool_iff. intros [Hlo Hhi].
  destruct (rnd64_40_100 (c * 100)) as (r1 & E1 & Hr1 & Hr1'); [lra | lra |].
  rewrite E1. simpl.
  set (n := rhe (r1 * 10)).
  assert (Hn1 : (400 <= n)%Z)
    by (apply rhe_ge; change (inject_Z 400) with 400; lra).
  assert (Hn2 : (n <= 1000)%Z)
    by (apply rhe_le; change (inject_Z 1000) with 1000; lra).
  rewrite Zle_Qle in Hn1, Hn2.
  destruct (rnd64_40_100 (inject_Z n / 10)) as (r & E & Hr & Hr').
  - apply Qle_shift_div_l; [reflexivity | exact Hn1].
  - apply Qle_shift_div_r; [reflexivity | exact Hn2].
  - exists n, r. unfold tenths. rewrite <- !Zle_Qle in *. auto.
Qed.

(** The model on some doubles: 0.1, and [round(x, 1)] on the tie 0.25 and
    on the double written 0.35, which lies below the tie. *)
Example literal_tenth :
  literal (1 # 10) = Fin (3602879701896397 # 36028797018963968).
Proof. vm_compute. reflexivity. Qed.

Example round1_tie_to_even : round1 (Fin (1 # 4)) = literal (2 # 10).
Proof. vm_compute. reflexivity. Qed.

Example round1_below_tie : round1 (literal (35 # 100)) = literal (3 # 10).
Proof. vm_compute. reflexivity. Qed.

Example rnd64_overflow : rnd64 (pow2 1024) = Inf false.
Proof. vm_compute. reflexivity. Qed.

Example rnd64_smallest_subnormal_tie : rnd64 (3 * pow2 (-1075)) = Fin (pow2 (-1073)).
Proof. vm_compute. reflexivity. Qed.

End FloatFacts.

(** * Facts about the threshold loop *)

Lemma in_band_below (conf : pyfloat) :
  flt conf MIN_CONFIDENCE = true -> in_band conf = false.
Proof.
  intros H. unfold in_band. rewrite (flt_fle_false _ _ H). reflexivity.
Qed.

(** One pass of the loop body, by the three branches of lines 66-75. *)
Lemma threshold_loop_keep tp ti i range acc conf id :
  tp !! i = Some conf -> ti !! i = Some id -> in_band conf = true ->
  threshold_loop tp ti (i :: range) acc =
  threshold_loop tp ti range (acc ++ [entry (conf, id)]).
Proof.
  intros Hc Hi Hb. cbn [threshold_loop]. unfold item. rewrite Hc, Hi.
  cbn. unfold in_band in Hb. rewrite Hb. reflexivity.
Qed.

Lemma threshold_loop_break tp ti i range acc conf :
  tp !! i = Some conf -> flt conf MIN_CONFIDENCE = true ->
  threshold_loop tp ti (i :: range) acc = Ok acc.
Proof.
  intros Hc Hb. cbn [threshold_loop]. unfold item. rewrite Hc. cbn.
  pose proof (in_band_below _ Hb) as Hn. unfold in_band in Hn.
  rewrite Hn, Hb. reflexivity.
Qed.

Lemma threshold_loop_skip tp ti i range acc conf :
  tp !! i = Some conf -> in_band conf = false ->
  flt conf MIN_CONFIDENCE = false ->
  threshold_loop tp ti (i :: range) acc = threshold_loop tp ti range acc.
Proof.
  intros Hc Hb Hl. cbn [threshold_loop]. unfold item. rewrite Hc. cbn.
  unfold in_band in Hb. rewrite Hb, Hl. reflexivity.
Qed.

(** Over tensors of equal length the loop is [scan] on the zipped list. *)
Lemma threshold_loop_scan tp ti n : forall k acc,
  length tp = length ti -> (k + n)%nat = length tp ->
  threshold_loop tp ti (seq k n) acc = Ok (acc ++ scan (drop k (zip tp ti))).
Proof.
  induction n as [|n IH]; intros k acc Hlen Hk.
  - rewrite drop_ge, app_nil_r; [reflexivity|].
    rewrite length_zip_with. lia.
  - destruct (lookup_lt_is_Some_2 tp k) as [conf Hc]; [lia|].
    destruct (lookup_lt_is_Some_2 ti k) as [id Hi]; [lia|].
    assert (Hz : zip tp ti !! k = Some (conf, id)).
    { rewrite lookup_zip_with, Hc, Hi. reflexivity. }
    rewrite (drop_S _ _ _ Hz). cbn [seq scan fst].
    destruct (in_band conf) eqn:Hb.
    + rewrite (threshold_loop_keep _ _ _ _ _ _ _ Hc Hi Hb), IH by lia.
      rewrite <- app_assoc. reflexivity.
    + destruct (flt conf MIN_CONFIDENCE) eqn:Hl.
      * rewrite (threshold_loop_break _ _ _ _ _ _ Hc Hl), app_nil_r.
        reflexivity.
      * rewrite (threshold_loop_skip _ _ _ _ _ _ Hc Hb Hl). apply IH; lia.
Qed.

(** On a descending list the early exit loses nothing: [scan] keeps exactly
    the entries of the band. *)
Lemma scan_filter (ranked : list (pyfloat * Z)) :
  descending ranked.*1 ->
  scan ranked = entry <$> filter (fun p => in_band p.1 = true) ranked.
Proof.
  unfold descending. induction ranked as [|p rest IH]; [reflexivity|].
  rewrite fmap_cons. intros Hs. apply StronglySorted_inv in Hs as [Hs Hall].
  cbn [scan]. destruct (in_band p.1) eqn:Hb.
  - rewrite filter_cons_True by assumption. rewrite fmap_cons, IH by assumption.
    reflexivity.
  - rewrite filter_cons_False by congruence.
    destruct (flt p.1 MIN_CONFIDENCE) eqn:Hl; [|apply IH, Hs].
    clear IH Hs. induction rest as [|q rest IH]; [reflexivity|].
    rewrite fmap_cons in Hall. apply Forall_cons in Hall as [Hq Hall].
    rewrite filter_cons_False; [apply IH, Hall|].
    rewrite (in_band_below q.1); [congruence|].
    eapply fle_flt_trans; eassumption.
Qed.

Lemma threshold_loop_length tp ti range : forall acc r,
  threshold_loop tp ti range acc = Ok r ->
  (length r <= length acc + length range)%nat.
Proof.
  induction range as [|i range IH]; intros acc r.
  - cbn. intros [= <-]. lia.
  - cbn [threshold_loop]. unfold item.
    destruct (tp !! i) as [conf|]; [cbn|discriminate].
    destruct (fle MIN_CONFIDENCE conf && fle conf MAX_CONFIDENCE).
    + destruct (ti !! i) as [id|]; [cbn|discriminate].
      intros Hr. apply IH in Hr. rewrite length_app in Hr. cbn in *. lia.
    + destruct (flt conf MIN_CONFIDENCE).
      * intros [= <-]. cbn. lia.
      * intros Hr. apply IH in Hr. cbn. lia.
Qed.

Lemma threshold_loop_Forall (P : pyobj -> Prop) tp ti range :
  (forall conf id, in_band conf = true -> P (entry (conf, id))) ->
  forall acc r,
    Forall P acc -> threshold_loop tp ti range acc = Ok r -> Forall P r.
Proof.
  intros HP. induction range as [|i range IH]; intros acc r Hacc.
  - cbn. intros [= <-]. exact Hacc.
  - cbn [threshold_loop]. unfold item.
    destruct (tp !! i) as [conf|]; [cbn|discriminate].
    destruct (fle MIN_CONFIDENCE conf && fle conf MAX_CONFIDENCE) eqn:Hb.
    + destruct (ti !! i) as [id|]; [cbn|discriminate].
      apply IH. apply Forall_app. split; [exact Hacc|].
      apply Forall_singleton. apply (HP conf id Hb).
    + destruct (flt conf MIN_CONFIDENCE).
      * intros [= <-]. exact Hacc.
      * apply IH, Hacc.
Qed.

(** Early exit: an entry below the minimum at index [i] cuts the range. *)
Lemma threshold_loop_cut tp ti i conf n :
  tp !! i = Some conf -> flt conf MIN_CONFIDENCE = true -> (i <= n)%nat ->
  forall m k acc, (k + m)%nat = i ->
    threshold_loop tp ti (seq k (n - k)) acc =
    threshold_loop tp ti (seq k m) acc.
Proof.
  intros Hc Hl Hn. induction m as [|m IH]; intros k acc Hk.
  - replace k with i by lia. destruct (n - i)%nat as [|j]; [reflexivity|].
    cbn [seq]. rewrite (threshold_loop_break _ _ _ _ _ _ Hc Hl). reflexivity.
  - replace (n - k)%nat with (S (n - S k)) by lia. cbn [seq threshold_loop].
    destruct (item tp k) as [c|]; [cbn|reflexivity].
    destruct (fle MIN_CONFIDENCE c && fle c MAX_CONFIDENCE).
    + destruct (item ti k) as [id|]; [cbn|reflexivity]. apply IH. lia.
    + destruct (flt c MIN_CONFIDENCE); [reflexivity|]. apply IH. lia.
Qed.

(** The loop on lists that are not ranked: the exit is no filter, and a
    value above the maximum or a NaN is passed over. *)
Example threshold_loop_exit_is_no_filter :
  threshold_loop [Fin (3 # 10); Fin (1 # 2)] [7; 8] (seq 0 2) [] = Ok [].
Proof. vm_compute. reflexivity. Qed.

Example threshold_loop_passes_over_above_max :
  threshold_loop [Fin (3 # 2); Fin (1 # 2)] [7; 8] (seq 0 2) [] =
  Ok [VDict [("class"%string, VStr "hen");
             ("confidence"%string, VFloat (Fin 50))]].
Proof. vm_compute. reflexivity. Qed.

Example threshold_loop_passes_over_nan :
  threshold_loop [NaN; Fin (1 # 2)] [7; 620] (seq 0 2) [] =
  Ok [VDict [("class"%string, VStr "laptop");
             ("confidence"%string, VFloat (Fin 50))]].
Proof. vm_compute. reflexivity. Qed.

Lemma descendingb_descending (l : list pyfloat) :
  descendingb l = true -> descending l.
Proof.
  unfold descending. induction l as [|a rest IH]; [constructor|].
  cbn [descendingb]. rewrite andb_true_iff, forallb_forall.
  intros [Hall Hrest]. apply StronglySorted_cons. split; [|apply IH, Hrest].
  apply Forall_forall. intros b Hb. apply Hall, list_elem_of_In, Hb.
Qed.

Lemma descending_filter (P : pyfloat * Z -> Prop)
    `{!forall p, Decision (P p)} (ranked : list (pyfloat * Z)) :
  descending ranked.*1 -> descending (filter P ranked).*1.
Proof.
  unfold descending. induction ranked as [|p rest IH]; [intros; constructor|].
  rewrite fmap_cons, StronglySorted_cons. intros [Hall Hs].
  destruct (decide (P p)).
  - rewrite filter_cons_True, fmap_cons, StronglySorted_cons by assumption.
    split; [|apply IH, Hs].
    rewrite Forall_fmap, Forall_forall in *. intros q Hq.
    apply list_elem_of_filter in Hq as [_ Hq]. apply Hall, Hq.
  - rewrite filter_cons_False by assumption. apply IH, Hs.
Qed.

Lemma in_band_Fin (conf : pyfloat) :
  in_band conf = true -> exists c, conf = Fin c.
Proof.
  unfold in_band. rewrite MIN_CONFIDENCE_value.
  destruct conf as [|[]|c]; cbn; try discriminate. eauto.
Qed.

(** The loop keeps the entries of the band among those it visits. *)
Lemma scan_before_exit (ranked : list (pyfloat * Z)) :
  scan ranked =
  entry <$> filter (fun p => in_band p.1 = true) (before_exit ranked).
Proof.
  induction ranked as [|p rest IH]; [reflexivity|].
  cbn [scan before_exit].
  destruct (in_band p.1) eqn:Hb, (flt p.1 MIN_CONFIDENCE) eqn:Hl.
  - rewrite (in_band_below _ Hl) in Hb. discriminate.
  - rewrite filter_cons_True, fmap_cons, IH by assumption. reflexivity.
  - reflexivity.
  - rewrite filter_cons_False by congruence. exact IH.
Qed.

(** An entry of the band is emitted unless an entry in front of it is
    below the minimum: values above the maximum and NaNs in front do not
    end the loop. *)
Lemma scan_emits (ranked : list (pyfloat * Z)) : forall j p,
  ranked !! j = Some p -> in_band p.1 = true ->
  (forall k q, (k < j)%nat -> ranked !! k = Some q ->
               flt q.1 MIN_CONFIDENCE = false) ->
  entry p ∈ scan ranked.
Proof.
  induction ranked as [|q rest IH]; intros j p Hj Hb Hfront; [discriminate|].
  destruct j as [|j].
  - injection Hj as ->. cbn [scan]. rewrite Hb. apply list_elem_of_here.
  - assert (Hq : flt q.1 MIN_CONFIDENCE = false)
      by (apply (Hfront 0%nat q); [lia | reflexivity]).
    assert (Hin : entry p ∈ scan rest).
    { apply (IH j p Hj Hb). intros k q' Hk Hq'.
      apply (Hfront (S k) q'); [lia | exact Hq']. }
    cbn [scan]. rewrite Hq.
    destruct (in_band q.1); [apply list_elem_of_further|]; exact Hin.
Qed.

(** * The service *)

Section ServiceFacts.

Context `{Libraries}.

(** What [predict_image] returns once [torch.topk] has answered. *)
Lemma predict_image_ranks image_bytes w top_probs top_ids w' :
  ranks image_bytes w top_probs top_ids w' ->
  predict_image image_bytes w =
  (match
     threshold_loop top_probs top_ids (seq 0 (length top_probs)) []
   with
   | Ok predictions => Ok predictions
   | Raise e => Raise (mkException ("Error: " +:+ str_exc e))
   end, w').
Proof.
  intros (buf & w1 & img & t & outputs & probs & H0 & H1 & H2 & H3 & H4 & H5).
  unfold predict_image, predict_image_try, try_except, lift, mbind, M_bind.
  cbn -[io_BytesIO model_call] in *. rewrite H0, H1, H2, H3, H4, H5.
  destruct (threshold_loop _ _ _ _); reflexivity.
Qed.

(** A returned list comes out of the loop over the answer of [torch.topk]. *)
Lemma predict_image_Ok_inv image_bytes w predictions w' :
  predict_image image_bytes w = (Ok predictions, w') ->
  exists top_probs top_ids,
    ranks image_bytes w top_probs top_ids w' /\
    threshold_loop top_probs top_ids (seq 0 (length top_probs)) [] =
    Ok predictions.
Proof.
  unfold ranks, predict_image, predict_image_try, try_except, lift, mbind,
    M_bind. cbn -[io_BytesIO model_call].
  destruct (io_BytesIO image_bytes _) as [[buf|] w1] eqn:H0; [|discriminate].
  destruct (Image_open_convert buf) as [img|] eqn:H1; [|discriminate].
  destruct (preprocess img) as [t|] eqn:H2; [|discriminate].
  destruct (model_call t w1) as [[outputs|] w2] eqn:H3; [|discriminate].
  destruct (softmax0 outputs) as [probs|] eqn:H4; [|discriminate].
  destruct (topk probs 50%nat) as [[tp ti]|] eqn:H5; [|discriminate].
  destruct (threshold_loop tp ti _ _) as [r|] eqn:Hl; [|discriminate].
  intros [= <- <-]. exists tp, ti. split; [|exact Hl].
  exists buf, w1, img, t, outputs, probs. repeat split; auto.
Qed.

(** An exception of the [try] block is wrapped by line 79. *)
Lemma predict_image_raise image_bytes w e :
  (predict_image_try image_bytes (enter image_bytes w).2).1 = Raise e ->
  predict_image image_bytes w =
  (Raise (mkException ("Error: " +:+ str_exc e)),
   (predict_image_try image_bytes (enter image_bytes w).2).2).
Proof.
  unfold predict_image, try_except, lift, mbind, M_bind. cbn.
  destruct (predict_image_try _ _) as [[r|e'] w1]; cbn; [discriminate|].
  intros [= ->]. reflexivity.
Qed.

(** C1: for an image that decodes and is ranked by the library, with
    fifty values and fifty indices in the answer of [torch.topk]:
    whatever the order of the answer, [predict_image] returns the entries
    of the band among those in front of the first entry below 0.40, as
    labels and confidences in their order, and an entry below 0.40 at
    index [i] ends the iteration there (the loop over the whole range is
    the loop over [range(i)]): an early exit, no filter.  When the answer
    is in descending order, as [torch.topk] gives it, these are exactly
    the entries of the fifty whose probability lies in the band from 0.40
    to 1.00, in descending order of probability. *)
Theorem predict_image_top50_band image_bytes w top_probs top_ids w' :
  ranks image_bytes w top_probs top_ids w' ->
  length top_probs = 50%nat -> length top_ids = 50%nat ->
  let ranked := zip top_probs top_ids in
  let kept := filter (fun p => in_band p.1 = true) ranked in
  predict_image image_bytes w =
  (Ok (entry <$> filter (fun p => in_band p.1 = true) (before_exit ranked)),
   w') /\
  (forall i conf,
     top_probs !! i = Some conf -> flt conf MIN_CONFIDENCE = true ->
     threshold_loop top_probs top_ids (seq 0 (length top_probs)) [] =
     threshold_loop top_probs top_ids (seq 0 i) []) /\
  (descending top_probs ->
   predict_image image_bytes w = (Ok (entry <$> kept), w') /\
   descending kept.*1).
Proof.
  intros Hr Hp Hi ranked kept.
  assert (Hs : predict_image image_bytes w = (Ok (scan ranked), w')).
  { rewrite (predict_image_ranks _ _ _ _ _ Hr).
    rewrite threshold_loop_scan by lia. rewrite drop_0, app_nil_l.
    reflexivity. }
  split; [|split].
  - rewrite Hs, scan_before_exit. reflexivity.
  - intros i conf Hc Hl.
    pose proof (lookup_lt_Some _ _ _ Hc) as Hlt.
    pose proof (threshold_loop_cut top_probs top_ids i conf
                  (length top_probs) Hc Hl ltac:(lia) i 0%nat [] eq_refl) as E.
    rewrite Nat.sub_0_r in E. exact E.
  - intros Hd. split.
    + rewrite Hs, scan_filter; [reflexivity|].
      unfold ranked. rewrite fst_zip by lia. exact Hd.
    + apply descending_filter. unfold ranked. rewrite fst_zip by lia.
      exact Hd.
Qed.

(** C3: when the highest-ranked probability is below 0.40, the list
    returned is empty. *)
Theorem predict_image_top_below_min image_bytes w top_probs top_ids w' conf :
  ranks image_bytes w top_probs top_ids w' ->
  top_probs !! 0%nat = Some conf -> flt conf MIN_CONFIDENCE = true ->
  predict_image image_bytes w = (Ok [], w').
Proof.
  intros Hr Hc Hl. rewrite (predict_image_ranks _ _ _ _ _ Hr).
  destruct top_probs as [|c tp]; [discriminate|]. cbn [length seq].
  rewrite (threshold_loop_break _ _ _ _ _ _ Hc Hl). reflexivity.
Qed.

(** C2: every confidence of a returned list is the double nearest to a
    decimal with one digit after the point, [n / 10] with
    [400 <= n <= 1000], and lies between 40.0 and 100.0 inclusive. *)
Theorem predict_image_confidence_range image_bytes w predictions w' p :
  predict_image image_bytes w = (Ok predictions, w') -> p ∈ predictions ->
  exists (name : string) (n : Z) (r : Q),
    p = VDict [("class"%string, VStr name);
               ("confidence"%string, VFloat (tenths n))] /\
    400 <= n <= 1000 /\
    tenths n = Fin r /\ (40 <= r)%Q /\ (r <= 100)%Q.
Proof.
  intros Hp Hin. apply predict_image_Ok_inv in Hp as (tp & ti & _ & Hl).
  revert p Hin. apply Forall_forall.
  eapply threshold_loop_Forall; [| constructor | exact Hl].
  intros conf id Hb.
  destruct (conf_percent_band conf Hb) as (n & r & E & Hn & Er & Hr).
  exists (class_name_of (str_int id)), n, r. unfold entry. cbn [fst snd].
  rewrite E. auto.
Qed.

(** C10: an entry whose probability is above 1.00 is passed over and the
    iteration goes on with the rest of the range; only an entry below
    0.40 ends the loop, so an entry of the band is emitted whenever no
    entry in front of it is below 0.40, whatever values above 1.00 stand
    in front; and the list returned for an answer of fifty ranked values
    has at most fifty entries. *)
Theorem predict_image_above_max_skipped image_bytes w top_probs top_ids w' :
  ranks image_bytes w top_probs top_ids w' -> length top_probs = 50%nat ->
  (forall i range acc conf,
     top_probs !! i = Some conf -> flt MAX_CONFIDENCE conf = true ->
     threshold_loop top_probs top_ids (i :: range) acc =
     threshold_loop top_probs top_ids range acc) /\
  (length top_ids = length top_probs ->
   forall j conf id,
     top_probs !! j = Some conf -> top_ids !! j = Some id ->
     in_band conf = true ->
     (forall k c, (k < j)%nat -> top_probs !! k = Some c ->
                  flt c MIN_CONFIDENCE = false) ->
     exists predictions,
       predict_image image_bytes w = (Ok predictions, w') /\
       entry (conf, id) ∈ predictions) /\
  (forall predictions,
     (predict_image image_bytes w).1 = Ok predictions ->
     (length predictions <= 50)%nat).
Proof.
  intros Hr Hlen. split; [|split].
  - intros i range acc conf Hc Hl. apply threshold_loop_skip with conf.
    + exact Hc.
    + unfold in_band. rewrite (flt_fle_false _ _ Hl). apply andb_false_r.
    + destruct (flt conf MIN_CONFIDENCE) eqn:Hm; [|reflexivity].
      destruct conf as [|[]|c]; try discriminate.
      rewrite MIN_CONFIDENCE_value in Hm. rewrite MAX_CONFIDENCE_value in Hl.
      apply flt_Fin in Hm, Hl. exfalso. clear -Hm Hl. lra.
  - intros Hids j conf id Hc Hi Hb Hfront. eexists. split.
    + rewrite (predict_image_ranks _ _ _ _ _ Hr).
      rewrite threshold_loop_scan by lia. rewrite drop_0, app_nil_l.
      reflexivity.
    + apply (scan_emits _ j (conf, id)).
      * rewrite lookup_zip_with, Hc, Hi. reflexivity.
      * exact Hb.
      * intros k q Hk Hq. apply lookup_zip_with_Some in Hq
          as (c & id' & -> & Hc' & _). apply (Hfront k c Hk Hc').
  - intros predictions. rewrite (predict_image_ranks _ _ _ _ _ Hr). cbn.
    destruct (threshold_loop _ _ _ _) as [r|] eqn:E; [|discriminate].
    intros [= <-]. apply threshold_loop_length in E.
    rewrite length_seq in E. cbn in E. lia.
Qed.

(** Steps of the [try] block that raise. *)
Lemma predict_image_try_decode_fails image_bytes w buf w1 e :
  io_BytesIO image_bytes w = (Ok buf, w1) ->
  Image_open_convert buf = Raise e ->
  predict_image_try image_bytes w = (Raise e, w1).
Proof.
  intros Eb E. unfold predict_image_try, lift, mbind, M_bind.
  rewrite Eb, E. reflexivity.
Qed.

Lemma lookup_file_in (request : Request) file :
  files request !! "file"%string = Some file ->
  bool_decide ("file"%string ∈ dom (files request)) = true.
Proof. intros E. apply bool_decide_eq_true. eapply elem_of_dom_2, E. Qed.

(** The handler on an upload with a file name: it answers what
    [predict_image] returns or raises. *)
Lemma predict_upload request w file :
  files request !! "file"%string = Some file ->
  filename file <> ""%string ->
  predict request w =
  match predict_image (read file) w with
  | (Ok predictions, w') =>
      (Ok (jsonify (VDict [("success"%string, VBool true);
                           ("predictions"%string, VList predictions)])), w')
  | (Raise e, w') => (Ok (failure (str_exc e)), w')
  end.
Proof.
  intros Hf Hn. unfold predict, try_except.
  rewrite (lookup_file_in _ _ Hf). cbn [negb].
  unfold mbind at 1. unfold M_bind at 1. unfold lift at 1, getitem.
  rewrite Hf. apply String.eqb_neq in Hn. rewrite Hn.
  unfold mbind, M_bind at 1.
  destruct (predict_image (read file) w) as [[r|e] w1]; reflexivity.
Qed.

(** C5: without a [file] field the handler answers
    [{success: false, error: No file uploaded}], with a file of empty name
    [{success: false, error: No file selected}]; in both cases the world is
    left as it was, so [predict_image] was not entered. *)
Theorem predict_rejects_missing_upload request w :
  (files request !! "file"%string = None ->
   predict request w =
   (Ok (jsonify (VDict [("success"%string, VBool false);
                        ("error"%string, VStr "No file uploaded")])), w)) /\
  (forall file,
     files request !! "file"%string = Some file ->
     filename file = ""%string ->
     predict request w =
     (Ok (jsonify (VDict [("success"%string, VBool false);
                          ("error"%string, VStr "No file selected")])), w)) /\
  ((files request !! "file"%string = None \/
    exists file, files request !! "file"%string = Some file /\
                 filename file = ""%string) ->
   invoked (predict request w).2 = invoked w).
Proof.
  assert (H1 : files request !! "file"%string = None ->
    predict request w =
    (Ok (jsonify (VDict [("success"%string, VBool false);
                         ("error"%string, VStr "No file uploaded")])), w)).
  { intros Hf. unfold predict, try_except.
    replace (bool_decide ("file"%string ∈ dom (files request))) with false;
      [reflexivity|].
    symmetry. apply bool_decide_eq_false. apply not_elem_of_dom, Hf. }
  assert (H2 : forall file, files request !! "file"%string = Some file ->
    filename file = ""%string ->
    predict request w =
    (Ok (jsonify (VDict [("success"%string, VBool false);
                         ("error"%string, VStr "No file selected")])), w)).
  { intros file Hf Hn. unfold predict, try_except.
    rewrite (lookup_file_in _ _ Hf). cbn [negb].
    unfold mbind, M_bind, lift, getitem. rewrite Hf, Hn. reflexivity. }
  split; [exact H1|]. split; [exact H2|].
  intros [Hf | (file & Hf & Hn)].
  - rewrite (H1 Hf). reflexivity.
  - rewrite (H2 file Hf Hn). reflexivity.
Qed.

(** C6: on bytes that do not decode, the handler answers
    [{success: false, error: m}] where [m] is the message of the decode
    error behind the prefix of line 79; the body has no [predictions].
    [buf] is the buffer line 54 builds for the uploaded bytes, and [e] the
    error raised for that buffer. *)
Theorem predict_undecodable request w file buf w1 e :
  files request !! "file"%string = Some file ->
  filename file <> ""%string ->
  io_BytesIO (read file) (enter (read file) w).2 = (Ok buf, w1) ->
  Image_open_convert buf = Raise e ->
  predict request w =
  (Ok (jsonify (VDict [("success"%string, VBool false);
                       ("error"%string,
                        VStr ("Error: " +:+ str_exc e))])),
   w1).
Proof.
  intros Hf Hn Hb He. rewrite (predict_upload _ _ _ Hf Hn).
  rewrite predict_image_raise with (e := e).
  - rewrite (predict_image_try_decode_fails _ _ _ _ _ Hb He). reflexivity.
  - rewrite (predict_image_try_decode_fails _ _ _ _ _ Hb He). reflexivity.
Qed.

(** C7: on each error path of the handler (no field, empty file name,
    decode failure, inference failure) the response has status 200 and a
    body whose [success] is false. *)
Theorem predict_error_status_200 request w msg :
  error_path request w msg ->
  exists resp w',
    predict request w = (Ok resp, w') /\ status resp = 200 /\
    json_body resp = VDict [("success"%string, VBool false);
                            ("error"%string, VStr msg)].
Proof.
  intros [Hf | file Hf Hn | file buf w1 e Hf Hn Hb He
          | file buf w1 img e Hf Hn _ _ He].
  - exists (failure "No file uploaded"), w. split; [|split; reflexivity].
    unfold predict, try_except.
    replace (bool_decide ("file"%string ∈ dom (files request))) with false;
      [reflexivity|].
    symmetry. apply bool_decide_eq_false. apply not_elem_of_dom, Hf.
  - exists (failure "No file selected"), w. split; [|split; reflexivity].
    unfold predict, try_except. rewrite (lookup_file_in _ _ Hf). cbn [negb].
    unfold mbind, M_bind, lift, getitem. rewrite Hf, Hn. reflexivity.
  - pose proof (predict_image_try_decode_fails _ _ _ _ _ Hb He) as Ht.
    eexists (failure _), _. split; [|split; reflexivity].
    rewrite (predict_upload _ _ _ Hf Hn).
    rewrite predict_image_raise with (e := e); [reflexivity|].
    rewrite Ht. reflexivity.
  - eexists (failure _), _. split; [|split; reflexivity].
    rewrite (predict_upload _ _ _ Hf Hn).
    rewrite (predict_image_raise _ _ _ He). reflexivity.
Qed.

(** C9: when the [try] block of [predict_image] raises [e] (the decoding
    or any later step of the inference), [predict_image] raises an
    exception whose message is [Error: ] followed by [str(e)], and that
    message is the [error] field of the handler's response. *)
Theorem predict_image_error_prefix image_bytes w e :
  (predict_image_try image_bytes (enter image_bytes w).2).1 = Raise e ->
  (predict_image image_bytes w).1 =
    Raise (mkException ("Error: " +:+ str_exc e)) /\
  (forall request file,
     files request !! "file"%string = Some file ->
     filename file <> ""%string -> read file = image_bytes ->
     exists resp,
       (predict request w).1 = Ok resp /\
       json_body resp = VDict [("success"%string, VBool false);
                               ("error"%string,
                                VStr ("Error: " +:+ str_exc e))]).
Proof.
  intros He. split.
  - rewrite (predict_image_raise _ _ _ He). reflexivity.
  - intros request file Hf Hn <-. eexists. split.
    + rewrite (predict_upload _ _ _ Hf Hn).
      rewrite (predict_image_raise _ _ _ He). reflexivity.
    + reflexivity.
Qed.

(** The model is loaded in evaluation mode, by either branch. *)
Lemma load_model_eval m : load_model = Ok m -> training m = false.
Proof.
  unfold load_model, mbind, result_bind, mret, result_ret.
  destruct (print "Loading ResNet50 model...") as [[]|]; [|discriminate].
  destruct resnet50_default as [m1|e1].
  - destruct (print "✅ Model loaded successfully!") as [[]|e0].
    + intros [= <-]. reflexivity.
    + destruct (print _) as [[]|]; [|discriminate].
      destruct resnet50_pretrained as [m2|e2]; [|discriminate].
      intros [= <-]. reflexivity.
  - destruct (print _) as [[]|]; [|discriminate].
    destruct resnet50_pretrained as [m2|e2]; [|discriminate].
    intros [= <-]. reflexivity.
Qed.

(** In evaluation mode the list returned is a function of the model and
    the bytes, whatever the generator and the identities of the buffers;
    neither the model nor the generator is touched. *)
Lemma predict_image_eval_mode image_bytes w w' :
  decodes_by_content ->
  training (model w) = false -> model w' = model w ->
  (forall predictions,
     (predict_image image_bytes w).1 = Ok predictions ->
     (predict_image image_bytes w').1 = Ok predictions) /\
  (forall e,
     (predict_image image_bytes w).1 = Raise e ->
     exists e', (predict_image image_bytes w').1 = Raise e') /\
  model (predict_image image_bytes w).2 = model w /\
  rng (predict_image image_bytes w).2 = rng w.
Proof.
  intros Hlaw Ht Hm.
  unfold predict_image, predict_image_try, try_except, lift, mbind, M_bind,
    model_call, enter, io_BytesIO.
  cbn.
  destruct (fresh_id (ids w)) as [a r], (fresh_id (ids w')) as [a' r'].
  cbn. rewrite Hm, Ht.
  specialize (Hlaw a a' image_bytes).
  destruct (Image_open_convert (mkBytesIO a image_bytes)) as [img|e1],
    (Image_open_convert (mkBytesIO a' image_bytes)) as [img'|e2];
    try contradiction.
  - subst img'.
    destruct (preprocess img) as [t|]; [|cbn; eauto 6].
    destruct (forward_eval _ t) as [outputs|]; [|cbn; eauto 6].
    destruct (softmax0 outputs) as [probs|]; [|cbn; eauto 6].
    destruct (topk probs 50%nat) as [[tp ti]|]; [|cbn; eauto 6].
    destruct (threshold_loop tp ti _ _); cbn; eauto 6.
  - cbn. repeat split; [discriminate | eauto].
Qed.

(** C8: with the model as the script loads it, a call of
    [predict_image] that returns a list is repeated by a second call on
    the same bytes with the same list (the same labels, the same
    confidences, the same order), and by a call in any other state of the
    process with that model: the list depends neither on the random
    generator nor on the identities of the buffers, and the calls leave
    the model and the generator as they were.  A call that raises is
    repeated by a call that raises; the text of a decode error names the
    buffer, and is not the same from call to call. *)
Theorem predict_image_deterministic image_bytes w :
  decodes_by_content -> load_model = Ok (model w) ->
  let first := predict_image image_bytes w in
  let second := predict_image image_bytes first.2 in
  (forall predictions,
     first.1 = Ok predictions -> second.1 = Ok predictions) /\
  (forall e, first.1 = Raise e -> exists e', second.1 = Raise e') /\
  model second.2 = model w /\ rng second.2 = rng w /\
  (forall w' predictions,
     model w' = model w -> first.1 = Ok predictions ->
     (predict_image image_bytes w').1 = Ok predictions).
Proof.
  intros Hlaw Hload first second. apply load_model_eval in Hload.
  destruct (predict_image_eval_mode image_bytes w w Hlaw Hload eq_refl)
    as (_ & _ & M1 & R1). fold first in M1, R1.
  destruct (predict_image_eval_mode image_bytes w first.2 Hlaw Hload M1)
    as (E1 & F1 & _ & _).
  destruct (predict_image_eval_mode image_bytes first.2 first.2 Hlaw)
    as (_ & _ & M2 & R2); [rewrite M1; exact Hload | reflexivity |].
  fold second in M2, R2.
  split; [exact E1|]. split; [exact F1|].
  split; [congruence|]. split; [congruence|].
  intros w' predictions Hw'.
  apply (predict_image_eval_mode image_bytes w w' Hlaw Hload Hw').
Qed.

End ServiceFacts.

(** * The label table *)

Lemma imagenet_classes_NoDup : NoDup imagenet_classes_items.*1.
Proof. apply (bool_decide_unpack _). vm_compute. reflexivity. Qed.

(** C4: a class index of the table is mapped to the label the table gives
    it (282 to tiger cat), and an index that is not in the table to
    [Class ] followed by the index (500 to Class 500). *)
Theorem class_name_of_table (class_id : string) :
  (forall name,
     (class_id, name) ∈ imagenet_classes_items ->
     imagenet_classes !! class_id = Some name /\
     class_name_of class_id = name) /\
  (class_id ∉ imagenet_classes_items.*1 ->
   imagenet_classes !! class_id = None /\
   class_name_of class_id = "Class " +:+ class_id) /\
  class_name_of (str_int 282) = "tiger cat"%string /\
  class_name_of (str_int 500) = "Class 500"%string.
Proof.
  split; [|split; [|split; vm_compute; reflexivity]].
  - intros name Hin.
    assert (E : imagenet_classes !! class_id = Some name).
    { apply elem_of_list_to_map_1; [apply imagenet_classes_NoDup | exact Hin]. }
    split; [exact E|]. unfold class_name_of, dict_get. rewrite E. reflexivity.
  - intros Hout.
    assert (E : imagenet_classes !! class_id = None).
    { apply not_elem_of_list_to_map_1, Hout. }
    split; [exact E|]. unfold class_name_of, dict_get. rewrite E. reflexivity.
Qed.

(** * The statements on concrete uploads *)

Lemma predict_image_top_below_min_witness :
  @predict_image demo demo_dim_image demo_world =
  (Ok [], demo_after demo_dim_image).
Proof.
  apply (@predict_image_top_below_min demo demo_dim_image demo_world
           (demo_ranking demo_dim_image).1 (demo_ranking demo_dim_image).2
           (demo_after demo_dim_image) (Fin (16 # 100))).
  - ranked_by_computation.
  - reflexivity.
  - vm_compute. reflexivity.
Defined.

Lemma predict_image_top50_band_witness :
  @predict_image demo_raw demo_mixed_image demo_raw_world =
  (Ok [VDict [("class"%string, VStr "tench");
              ("confidence"%string, VFloat (Fin 50))]],
   demo_raw_after demo_mixed_image) /\
  @predict_image demo demo_image demo_world =
  (Ok [VDict [("class"%string, VStr "Class 31");
              ("confidence"%string, VFloat (Fin 90))];
       VDict [("class"%string, VStr "Class 30");
              ("confidence"%string, VFloat (Fin 45))]],
   demo_after demo_image).
Proof.
  split.
  - refine (proj1 (@predict_image_top50_band demo_raw demo_mixed_image
              demo_raw_world (demo_raw_ranking demo_mixed_image).1
              (demo_raw_ranking demo_mixed_image).2
              (demo_raw_after demo_mixed_image) _ _ _)).
    + ranked_by_computation.
    + reflexivity.
    + reflexivity.
  - refine (proj1 (proj2 (proj2 (@predict_image_top50_band demo demo_image
              demo_world (demo_ranking demo_image).1
              (demo_ranking demo_image).2 (demo_after demo_image) _ _ _))
              _)).
    + ranked_by_computation.
    + reflexivity.
    + reflexivity.
    + apply descendingb_descending. vm_compute. reflexivity.
Defined.

Lemma predict_image_confidence_range_witness :
  exists (name : string) (n : Z) (r : Q),
    VDict [("class"%string, VStr "Class 31");
           ("confidence"%string, VFloat (Fin 90))] =
    VDict [("class"%string, VStr name);
           ("confidence"%string, VFloat (tenths n))] /\
    400 <= n <= 1000 /\
    tenths n = Fin r /\ (40 <= r)%Q /\ (r <= 100)%Q.
Proof.
  apply (@predict_image_confidence_range demo demo_image demo_world
           [VDict [("class"%string, VStr "Class 31");
                   ("confidence"%string, VFloat (Fin 90))];
            VDict [("class"%string, VStr "Class 30");
                   ("confidence"%string, VFloat (Fin 45))]]
           (demo_after demo_image)).
  - vm_compute. reflexivity.
  - apply list_elem_of_here.
Defined.

Lemma predict_image_above_max_skipped_witness :
  threshold_loop (demo_ranking demo_hot_image).1
    (demo_ranking demo_hot_image).2 (0%nat :: seq 1 49) [] =
  threshold_loop (demo_ranking demo_hot_image).1
    (demo_ranking demo_hot_image).2 (seq 1 49) [] /\
  (exists predictions,
     @predict_image demo demo_hot_image demo_world =
     (Ok predictions, demo_after demo_hot_image) /\
     VDict [("class"%string, VStr "goldfish");
            ("confidence"%string, VFloat (Fin 50))] ∈ predictions) /\
  (forall predictions,
     (@predict_image demo demo_hot_image demo_world).1 = Ok predictions ->
     (length predictions <= 50)%nat).
Proof.
  destruct (@predict_image_above_max_skipped demo demo_hot_image demo_world
              (demo_ranking demo_hot_image).1 (demo_ranking demo_hot_image).2
              (demo_after demo_hot_image)) as (Hskip & Hemit & Hlen).
  - ranked_by_computation.
  - reflexivity.
  - split; [|split; [|exact Hlen]].
    + apply (Hskip 0%nat (seq 1 49) [] (Fin (200 # 100))).
      * reflexivity.
      * vm_compute. reflexivity.
    + apply (Hemit eq_refl 1%nat (Fin (50 # 100)) 1).
      * reflexivity.
      * reflexivity.
      * vm_compute. reflexivity.
      * intros k c Hk Hc. assert (k = 0%nat) as -> by lia.
        injection Hc as <-. vm_compute. reflexivity.
Defined.

Lemma class_name_of_table_witness :
  imagenet_classes !! "282"%string = Some "tiger cat"%string /\
  class_name_of "282" = "tiger cat"%string /\
  imagenet_classes !! "500"%string = None /\
  class_name_of "500" = "Class 500"%string.
Proof.
  destruct (proj1 (class_name_of_table "282") "tiger cat"%string) as [E1 E2].
  { apply (bool_decide_unpack _). vm_compute. reflexivity. }
  destruct (proj1 (proj2 (class_name_of_table "500"))) as [E3 E4].
  { apply (bool_decide_unpack _). vm_compute. reflexivity. }
  auto.
Defined.

Lemma predict_rejects_missing_upload_witness :
  @predict demo (mkRequest ∅) demo_world =
  (Ok (jsonify (VDict [("success"%string, VBool false);
                       ("error"%string, VStr "No file uploaded")])),
   demo_world) /\
  @predict demo (demo_upload "" demo_image) demo_world =
  (Ok (jsonify (VDict [("success"%string, VBool false);
                       ("error"%string, VStr "No file selected")])),
   demo_world).
Proof.
  split.
  - apply (proj1 (@predict_rejects_missing_upload demo (mkRequest ∅)
                    demo_world)).
    reflexivity.
  - apply (proj1 (proj2 (@predict_rejects_missing_upload demo
                           (demo_upload "" demo_image) demo_world))
             (mkFile "" demo_image)).
    + vm_compute. reflexivity.
    + reflexivity.
Defined.

Lemma predict_undecodable_witness :
  @predict demo (demo_upload "junk.bin" []) demo_world =
  (Ok (jsonify
         (VDict [("success"%string, VBool false);
                 ("error"%string,
                  VStr "Error: cannot identify image file <_io.BytesIO object at 4096>")])),
   demo_after []).
Proof.
  apply (@predict_undecodable demo (demo_upload "junk.bin" []) demo_world
           (mkFile "junk.bin" []) (mkBytesIO 4096 []) (demo_after [])
           (mkException
              "cannot identify image file <_io.BytesIO object at 4096>")).
  - vm_compute. reflexivity.
  - discriminate.
  - reflexivity.
  - reflexivity.
Defined.

Lemma predict_error_status_200_witness :
  exists resp w',
    @predict demo (demo_upload "tiny.png" [Byte.x5a]) demo_world =
    (Ok resp, w') /\ status resp = 200 /\
    json_body resp =
    VDict [("success"%string, VBool false);
           ("error"%string,
            VStr "Error: selected index k out of range")].
Proof.
  apply (@predict_error_status_200 demo (demo_upload "tiny.png" [Byte.x5a])
           demo_world).
  apply (@inference_failure demo _ _ (mkFile "tiny.png" [Byte.x5a])
           (mkBytesIO 4096 [Byte.x5a]) (demo_after [Byte.x5a])
           [Byte.x5a] (mkException "selected index k out of range")).
  - vm_compute. reflexivity.
  - discriminate.
  - reflexivity.
  - reflexivity.
  - vm_compute. reflexivity.
Defined.

Lemma predict_image_error_prefix_witness :
  (@predict_image demo [Byte.x5a] demo_world).1 =
  Raise (mkException "Error: selected index k out of range").
Proof.
  apply (proj1 (@predict_image_error_prefix demo [Byte.x5a] demo_world
                  (mkException "selected index k out of range")
                  ltac:(vm_compute; reflexivity))).
Defined.

Lemma demo_decodes_by_content : @decodes_by_content demo.
Proof. intros a a' [|x b]; [exact I | reflexivity]. Qed.

Lemma predict_image_deterministic_witness :
  (@predict_image demo demo_image
     (@predict_image demo demo_image demo_world).2).1 =
  Ok [VDict [("class"%string, VStr "Class 31");
             ("confidence"%string, VFloat (Fin 90))];
      VDict [("class"%string, VStr "Class 30");
             ("confidence"%string, VFloat (Fin 45))]].
Proof.
  apply (proj1 (@predict_image_deterministic demo demo_image demo_world
                  demo_decodes_by_content eq_refl)).
  vm_compute. reflexivity.
Defined.

(** On bytes that do not decode, the two calls raise different texts: the
    second buffer does not live where the first did. *)
Example decode_error_names_the_buffer :
  (@predict_image demo [] demo_world).1 =
  Raise (mkException
           "Error: cannot identify image file <_io.BytesIO object at 4096>") /\
  (@predict_image demo [] (@predict_image demo [] demo_world).2).1 =
  Raise (mkException
           "Error: cannot identify image file <_io.BytesIO object at 4112>").
Proof. split; vm_compute; reflexivity. Qed.

(** * Further facts about the float model *)

Section RoundingFacts.

Local Open Scope Q_scope.

Lemma rhe_comp (q q' : Q) : q == q' -> rhe q = rhe q'.
Proof.
  intros E. unfold rhe. cbv zeta.
  rewrite (Qfloor_comp _ _ E).
  assert (Ec : (q - inject_Z (Qfloor q') ?= 1 # 2) =
               (q' - inject_Z (Qfloor q') ?= 1 # 2)).
  { apply Qcompare_comp; [rewrite E|]; reflexivity. }
  rewrite Ec. reflexivity.
Qed.

(** Rounding to an integer is monotone and moves by at most one half. *)
Lemma rhe_mono (x y : Q) : x <= y -> (rhe x <= rhe y)%Z.
Proof.
  intros Hxy. pose proof (Qfloor_resp_le _ _ Hxy) as Hf.
  destruct (Z.eq_dec (Qfloor x) (Qfloor y)) as [E | E].
  - unfold rhe. cbv zeta. rewrite <- E.
    destruct (Qcompare_spec (x - inject_Z (Qfloor x)) (1 # 2)) as [Hx|Hx|Hx];
      destruct (Qcompare_spec (y - inject_Z (Qfloor x)) (1 # 2)) as [Hy|Hy|Hy];
      try destruct (Z.even (Qfloor x)); try lia; exfalso; lra.
  - destruct (rhe_floor x) as [-> | ->], (rhe_floor y) as [-> | ->]; lia.
Qed.

Lemma rhe_near (q : Q) :
  - (1 # 2) <= inject_Z (rhe q) - q /\ inject_Z (rhe q) - q <= 1 # 2.
Proof.
  pose proof (Qfloor_le q) as H1. pose proof (Qlt_floor q) as H2.
  rewrite inject_Z_plus in H2. change (inject_Z 1) with 1 in H2.
  unfold rhe. cbv zeta.
  destruct (Qcompare_spec (q - inject_Z (Qfloor q)) (1 # 2)) as [Hc|Hc|Hc];
    try destruct (Z.even (Qfloor q));
    rewrite ?inject_Z_plus; change (inject_Z 1) with 1; lra.
Qed.

(** Inside the binade [[2^k, 2^(k+1))], [0 <= k < 52], rounding to
    binary64 is rounding to a multiple of [2^(k-52)]. *)
Lemma rnd64_binade (k : Z) (q : Q) :
  (0 <= k < 52)%Z ->
  inject_Z (2 ^ k) <= q -> q < inject_Z (2 ^ (k + 1)) ->
  exists r,
    rnd64 q = Fin r /\
    r == inject_Z (rhe (q * inject_Z (2 ^ (52 - k)))) / inject_Z (2 ^ (52 - k)).
Proof.
  intros Hk Hlo Hhi.
  assert (Hp : (0 < 2 ^ k)%Z) by (apply Z.pow_pos_nonneg; lia).
  assert (Hq0 : 0 < q).
  { eapply Qlt_le_trans; [|exact Hlo]. change 0 with (inject_Z 0).
    rewrite <- Zlt_Qlt. exact Hp. }
  set (s := inject_Z (2 ^ (52 - k))).
  assert (Hs : 0 < s).
  { unfold s. change 0 with (inject_Z 0). rewrite <- Zlt_Qlt.
    apply Z.pow_pos_nonneg; lia. }
  assert (Hps : pow2 (k - 52) == / s).
  { pose proof (pow2_neg (k - 52) ltac:(lia)) as Hn.
    replace (- (k - 52))%Z with (52 - k)%Z in Hn by lia. fold s in Hn.
    rewrite <- (Qmult_1_l (/ s)), <- Hn, <- Qmult_assoc, Qmult_inv_r.
    - symmetry. apply Qmult_1_r.
    - lra. }
  assert (Hdiv : q / pow2 (k - 52) == q * s).
  { unfold Qdiv. rewrite Hps, Qinv_involutive. reflexivity. }
  unfold rnd64.
  replace (Qeq_bool q 0) with false
    by (symmetry; apply Qeq_bool_false; lra).
  assert (Habs : Qabs q == q) by (apply Qabs_pos; lra).
  rewrite (ilog2_binade k (Qabs q)); [| lia | rewrite Habs; assumption ..].
  rewrite Z.max_l by lia.
  rewrite (rhe_comp _ _ Hdiv).
  set (m := rhe (q * s)).
  assert (Hm1 : 0 <= inject_Z m).
  { change 0 with (inject_Z 0). rewrite <- Zle_Qle. apply rhe_ge.
    change (inject_Z 0) with 0. apply Qmult_le_0_compat; lra. }
  assert (Hm2 : inject_Z m <= inject_Z (2 ^ (k + 1)) * s).
  { unfold s. rewrite <- inject_Z_mult, <- Zle_Qle. apply rhe_le.
    rewrite inject_Z_mult. fold s. apply Qmult_le_compat_r; lra. }
  set (r := Qred (inject_Z m * pow2 (k - 52))).
  assert (Hr : r == inject_Z m / s).
  { unfold r. rewrite Qred_correct, Hps. reflexivity. }
  assert (Hr0 : 0 <= r).
  { rewrite Hr. apply Qle_shift_div_l; [exact Hs|]. lra. }
  assert (Hr1 : r <= inject_Z (2 ^ (k + 1))).
  { rewrite Hr. apply Qle_shift_div_r; assumption. }
  replace (Qle_bool (pow2 1024) (Qabs r)) with false.
  - exists r. split; [reflexivity | exact Hr].
  - symmetry. apply Qle_bool_false.
    rewrite (Qabs_pos r Hr0), pow2_nonneg by lia.
    eapply Qle_lt_trans; [exact Hr1|]. rewrite <- Zlt_Qlt.
    apply Z.pow_lt_mono_r; lia.
Qed.

Lemma rnd64_binade_mono (k : Z) (x y rx ry : Q) :
  (0 <= k < 52)%Z ->
  inject_Z (2 ^ k) <= x -> x <= y -> y < inject_Z (2 ^ (k + 1)) ->
  rnd64 x = Fin rx -> rnd64 y = Fin ry -> rx <= ry.
Proof.
  intros Hk Hx Hxy Hy Ex Ey.
  destruct (rnd64_binade k x Hk Hx) as (rx' & Ex' & Hrx);
    [eapply Qle_lt_trans; eassumption|].
  destruct (rnd64_binade k y Hk) as (ry' & Ey' & Hry);
    [eapply Qle_trans; eassumption | assumption |].
  rewrite Ex in Ex'. rewrite Ey in Ey'.
  injection Ex' as <-. injection Ey' as <-.
  set (s := inject_Z (2 ^ (52 - k))) in *.
  assert (Hs : 0 < s).
  { unfold s. change 0 with (inject_Z 0). rewrite <- Zlt_Qlt.
    apply Z.pow_pos_nonneg; lia. }
  rewrite Hrx, Hry. apply Qmult_le_compat_r.
  - rewrite <- Zle_Qle. apply rhe_mono. apply Qmult_le_compat_r; lra.
  - apply Qlt_le_weak, Qinv_lt_0_compat, Hs.
Qed.

Lemma rnd64_binade_near (k : Z) (q r : Q) :
  (0 <= k < 52)%Z ->
  inject_Z (2 ^ k) <= q -> q < inject_Z (2 ^ (k + 1)) ->
  rnd64 q = Fin r ->
  - ((1 # 2) / inject_Z (2 ^ (52 - k))) <= r - q /\
  r - q <= (1 # 2) / inject_Z (2 ^ (52 - k)).
Proof.
  intros Hk Hlo Hhi E.
  destruct (rnd64_binade k q Hk Hlo Hhi) as (r' & E' & Hr).
  rewrite E in E'. injection E' as <-.
  set (s := inject_Z (2 ^ (52 - k))) in *.
  assert (Hs : 0 < s).
  { unfold s. change 0 with (inject_Z 0). rewrite <- Zlt_Qlt.
    apply Z.pow_pos_nonneg; lia. }
  destruct (rhe_near (q * s)) as [H1 H2].
  assert (Hd : r - q == (inject_Z (rhe (q * s)) - q * s) / s).
  { rewrite Hr. field. lra. }
  rewrite Hd. split.
  - apply Qle_shift_div_l; [exact Hs|].
    assert (Hn : - ((1 # 2) / s) * s == - (1 # 2)) by (field; lra).
    rewrite Hn. exact H1.
  - apply Qle_shift_div_r; [exact Hs|].
    assert (Hn : (1 # 2) / s * s == 1 # 2) by (field; lra).
    rewrite Hn. exact H2.
Qed.

End RoundingFacts.

(** * Further facts about line 69 *)

Section PercentFacts.

Local Open Scope Q_scope.

Lemma rnd64_40_100_mono (x y rx ry : Q) :
  40 <= x -> x <= y -> y <= 100 ->
  rnd64 x = Fin rx -> rnd64 y = Fin ry -> rx <= ry.
Proof.
  intros Hx Hxy Hy Ex Ey.
  destruct (Qlt_le_dec y 64) as [Hy64 | Hy64].
  - apply (rnd64_binade_mono 5 x y rx ry);
      [lia | | exact Hxy | exact Hy64 | exact Ex | exact Ey].
    change (inject_Z (2 ^ 5)) with 32. lra.
  - destruct (Qlt_le_dec x 64) as [Hx64 | Hx64].
    + destruct (rnd64_bounds 5 40 64 x) as (r1 & E1 & _ & H1);
        [lia | lia | lia | exact Hx | apply Qlt_le_weak, Hx64 | exact Hx64 |].
      destruct (rnd64_bounds 6 64 100 y) as (r2 & E2 & H2 & _);
        [lia | lia | lia | exact Hy64 | exact Hy | |].
      { change (inject_Z (2 ^ (6 + 1))) with 128. lra. }
      rewrite Ex in E1. rewrite Ey in E2.
      injection E1 as <-. injection E2 as <-.
      change (inject_Z 64) with 64 in *. lra.
    + apply (rnd64_binade_mono 6 x y rx ry);
        [lia | exact Hx64 | exact Hxy | | exact Ex | exact Ey].
      change (inject_Z (2 ^ (6 + 1))) with 128. lra.
Qed.

Lemma rnd64_40_100_near (q r : Q) :
  40 <= q -> q <= 100 -> rnd64 q = Fin r ->
  - (1 # 140737488355328) <= r - q /\ r - q <= 1 # 140737488355328.
Proof.
  intros Hlo Hhi E. destruct (Qlt_le_dec q 64) as [H64 | H64].
  - destruct (rnd64_binade_near 5 q r) as [H1 H2];
      [lia | | exact H64 | exact E |].
    { change (inject_Z (2 ^ 5)) with 32. lra. }
    assert (Hb : (1 # 2) / inject_Z (2 ^ (52 - 5)) == 1 # 281474976710656)
      by reflexivity.
    rewrite Hb in H1, H2. lra.
  - destruct (rnd64_binade_near 6 q r) as [H1 H2];
      [lia | exact H64 | | exact E |].
    { change (inject_Z (2 ^ (6 + 1))) with 128. lra. }
    assert (Hb : (1 # 2) / inject_Z (2 ^ (52 - 6)) == 1 # 140737488355328)
      by reflexivity.
    rewrite Hb in H1, H2. lra.
Qed.

(** The steps of line 69 on a probability of the band: the product [a],
    the number [n] of tenths, the result [b]. *)
Lemma conf_percent_steps (c : Q) :
  in_band (Fin c) = true ->
  exists (a : Q) (n : Z) (b : Q),
    40 <= c * 100 /\ c * 100 <= 100 /\
    rnd64 (c * 100) = Fin a /\ 40 <= a /\ a <= 100 /\
    n = rhe (a * 10) /\ 40 <= inject_Z n / 10 /\ inject_Z n / 10 <= 100 /\
    rnd64 (inject_Z n / 10) = Fin b /\ conf_percent (Fin c) = Fin b.
Proof.
  unfold in_band.
  rewrite MIN_CONFIDENCE_value, MAX_CONFIDENCE_value, andb_true_iff.
  cbn [fle]. rewrite !Qle_bool_iff. intros [Hlo Hhi].
  destruct (rnd64_40_100 (c * 100)) as (a & Ea & Ha1 & Ha2); [lra | lra |].
  set (n := rhe (a * 10)).
  assert (Hn1 : (400 <= n)%Z)
    by (apply rhe_ge; change (inject_Z 400) with 400; lra).
  assert (Hn2 : (n <= 1000)%Z)
    by (apply rhe_le; change (inject_Z 1000) with 1000; lra).
  rewrite Zle_Qle in Hn1, Hn2.
  change (inject_Z 400) with 400 in Hn1.
  change (inject_Z 1000) with 1000 in Hn2.
  assert (Ht1 : 40 <= inject_Z n / 10)
    by (apply Qle_shift_div_l; [reflexivity | exact Hn1]).
  assert (Ht2 : inject_Z n / 10 <= 100)
    by (apply Qle_shift_div_r; [reflexivity | exact Hn2]).
  destruct (rnd64_40_100 (inject_Z n / 10)) as (b & Eb & _ & _);
    [exact Ht1 | exact Ht2 |].
  exists a, n, b. repeat split; try assumption; try lra.
  unfold conf_percent. cbn [fmul]. rewrite Ea. cbn [round1]. exact Eb.
Qed.

(** Line 69 is monotone on the band. *)
Lemma conf_percent_mono (c1 c2 : Q) :
  in_band (Fin c1) = true -> in_band (Fin c2) = true -> c1 <= c2 ->
  fle (conf_percent (Fin c1)) (conf_percent (Fin c2)) = true.
Proof.
  intros B1 B2 Hc.
  destruct (conf_percent_steps c1 B1)
    as (a1 & n1 & b1 & L1 & U1 & Ea1 & La1 & Ua1 & En1 & Lt1 & Ut1 & Eb1 & ->).
  destruct (conf_percent_steps c2 B2)
    as (a2 & n2 & b2 & L2 & U2 & Ea2 & La2 & Ua2 & En2 & Lt2 & Ut2 & Eb2 & ->).
  apply fle_Fin.
  assert (Ha : a1 <= a2).
  { apply (rnd64_40_100_mono (c1 * 100) (c2 * 100)); try assumption. lra. }
  assert (Hn : (n1 <= n2)%Z).
  { subst n1 n2. apply rhe_mono. lra. }
  rewrite Zle_Qle in Hn.
  apply (rnd64_40_100_mono (inject_Z n1 / 10) (inject_Z n2 / 10));
    try assumption.
  apply Qmult_le_compat_r; [exact Hn | discriminate].
Qed.

End PercentFacts.

(** * Further facts about the loop *)

Lemma confidence_of_entry (p : pyfloat * Z) :
  confidence_of (entry p) = Some (conf_percent p.1).
Proof. reflexivity. Qed.

Lemma descending_conf_percent (l : list pyfloat) :
  Forall (fun conf => in_band conf = true) l ->
  descending l -> descending (conf_percent <$> l).
Proof.
  unfold descending. induction l as [|a rest IH]; [constructor|].
  rewrite Forall_cons, fmap_cons, !StronglySorted_cons.
  intros [Ha Hrest] [Hall Hs]. split; [|apply IH; assumption].
  rewrite Forall_fmap, Forall_forall in *. intros b Hb. cbn.
  destruct (in_band_Fin a Ha) as [ca ->].
  destruct (in_band_Fin b (Hrest b Hb)) as [cb Eb].
  pose proof (Hall b Hb) as Hle. pose proof (Hrest b Hb) as Hbb.
  subst b. apply conf_percent_mono; [assumption..|].
  apply fle_Fin, Hle.
Qed.

Lemma Qsum_nonneg (qs : list Q) :
  Forall (fun q => 0 <= q)%Q qs -> (0 <= Qsum qs)%Q.
Proof.
  induction 1 as [|q qs Hq _ IH]; [discriminate|].
  change (0 <= q + Qsum qs)%Q. lra.
Qed.

(** Every entry kept weighs at least two fifths in the sum of the ranked
    values. *)
Lemma scan_weight (qs : list Q) : forall ids,
  Forall (fun q => 0 <= q)%Q qs ->
  ((2 # 5) * inject_Z (Z.of_nat (length (scan (zip (Fin <$> qs) ids))))
   <= Qsum qs)%Q.
Proof.
  induction qs as [|q qs IH]; intros ids Hall.
  - cbn. discriminate.
  - apply Forall_cons in Hall as [Hq Hall].
    pose proof (Qsum_nonneg qs Hall) as Hsum.
    destruct ids as [|id ids].
    { cbn. fold (Qsum qs). change (inject_Z (Z.of_nat 0)) with 0%Q. lra. }
    specialize (IH ids Hall).
    rewrite fmap_cons. cbn [zip_with scan fst Qsum foldr].
    fold (Qsum qs).
    destruct (in_band (Fin q)) eqn:Hb.
    + cbn [length]. rewrite Nat2Z.inj_succ, <- Z.add_1_r, inject_Z_plus.
      change (inject_Z 1) with 1%Q.
      unfold in_band in Hb. rewrite MIN_CONFIDENCE_value in Hb.
      apply andb_true_iff in Hb as [Hb _]. apply fle_Fin in Hb.
      clear -Hb IH. lra.
    + destruct (flt (Fin q) MIN_CONFIDENCE).
      * cbn [length]. change (inject_Z (Z.of_nat 0)) with 0%Q.
        clear -Hq Hsum. lra.
      * clear -Hq IH. lra.
Qed.

Section MoreServiceFacts.

Context `{Libraries}.

(** Over an answer of [torch.topk] with as many indices as values,
    [predict_image] returns [scan] of the ranked list. *)
Lemma predict_image_scan image_bytes w top_probs top_ids w' :
  ranks image_bytes w top_probs top_ids w' ->
  length top_ids = length top_probs ->
  predict_image image_bytes w = (Ok (scan (zip top_probs top_ids)), w').
Proof.
  intros Hr Hlen. rewrite (predict_image_ranks _ _ _ _ _ Hr).
  rewrite threshold_loop_scan by lia. rewrite drop_0, app_nil_l.
  reflexivity.
Qed.

(** X1: whatever order [torch.topk] answers in, the list returned is made
    of the entries of the band among those in front of the first entry
    below 0.40, in their order. *)
Theorem predict_image_prefix_filter image_bytes w top_probs top_ids w' :
  ranks image_bytes w top_probs top_ids w' ->
  length top_ids = length top_probs ->
  predict_image image_bytes w =
  (Ok (entry <$> filter (fun p => in_band p.1 = true)
                   (before_exit (zip top_probs top_ids))), w').
Proof.
  intros Hr Hlen. rewrite (predict_image_scan _ _ _ _ _ Hr Hlen).
  rewrite scan_before_exit. reflexivity.
Qed.

(** X2: when the ranked values are non-negative numbers whose sum is below
    1.2 (a softmax sums to 1), at most two predictions are returned. *)
Theorem predict_image_at_most_two image_bytes w (qs : list Q) top_ids w' :
  ranks image_bytes w (Fin <$> qs) top_ids w' ->
  length top_ids = length qs ->
  Forall (fun q => 0 <= q)%Q qs -> (Qsum qs < 6 # 5)%Q ->
  exists predictions,
    predict_image image_bytes w = (Ok predictions, w') /\
    (length predictions <= 2)%nat.
Proof.
  intros Hr Hlen Hall Hsum. eexists. split.
  - apply (predict_image_scan _ _ _ _ _ Hr). rewrite length_fmap. exact Hlen.
  - pose proof (scan_weight qs top_ids Hall) as Hw.
    set (n := length (scan (zip (Fin <$> qs) top_ids))) in *.
    assert (Hn : (inject_Z (Z.of_nat n) < 3)%Q) by lra.
    change 3%Q with (inject_Z 3) in Hn. rewrite <- Zlt_Qlt in Hn. lia.
Qed.

(** X3: for a descending answer of [torch.topk], the confidences of the
    list returned, read in order, are descending too: rounding keeps the
    ranking. *)
Theorem predict_image_confidences_descending
    image_bytes w top_probs top_ids w' :
  ranks image_bytes w top_probs top_ids w' ->
  length top_ids = length top_probs ->
  descending top_probs ->
  exists predictions confs,
    predict_image image_bytes w = (Ok predictions, w') /\
    confidence_of <$> predictions = Some <$> confs /\
    descending confs.
Proof.
  intros Hr Hlen Hd.
  set (kept := filter (fun p => in_band p.1 = true) (zip top_probs top_ids)).
  exists (entry <$> kept), (conf_percent <$> kept.*1). split; [|split].
  - rewrite (predict_image_scan _ _ _ _ _ Hr Hlen).
    rewrite scan_filter; [reflexivity|]. rewrite fst_zip by lia. exact Hd.
  - rewrite <- !list_fmap_compose. apply list_fmap_ext.
    intros i p _. apply confidence_of_entry.
  - apply descending_conf_percent.
    + rewrite Forall_fmap. apply Forall_forall. intros p Hp.
      apply list_elem_of_filter in Hp as [Hp _]. exact Hp.
    + apply descending_filter. rewrite fst_zip by lia. exact Hd.
Qed.

End MoreServiceFacts.

(** * The error of the reported percentage *)

Section PercentError.

Local Open Scope Q_scope.

(** Line 69 on a probability [c] of the band lands within one twentieth,
    and two roundings to binary64, of [100 c]. *)
Lemma conf_percent_error (c : Q) :
  in_band (Fin c) = true ->
  exists b,
    conf_percent (Fin c) = Fin b /\
    - ((1 # 20) + (1 # 70368744177664)) <= b - 100 * c /\
    b - 100 * c <= (1 # 20) + (1 # 70368744177664).
Proof.
  intros Hb.
  destruct (conf_percent_steps c Hb)
    as (a & n & b & L & U & Ea & La & Ua & En & Lt & Ut & Eb & E).
  exists b. split; [exact E|].
  destruct (rnd64_40_100_near _ _ L U Ea) as [A1 A2].
  destruct (rnd64_40_100_near _ _ Lt Ut Eb) as [B1 B2].
  destruct (rhe_near (a * 10)) as [N1 N2]. rewrite <- En in N1, N2.
  set (t := inject_Z n / 10) in *.
  assert (Ht : inject_Z n == t * 10) by (unfold t; field).
  rewrite Ht in N1, N2. clear -A1 A2 B1 B2 N1 N2. lra.
Qed.

End PercentError.

Section HandlerFacts.

Context `{Libraries}.

(** X4: each confidence returned is within 0.05, plus [2 ^ -46] for the
    two roundings to binary64, of one hundred times the probability of the
    ranked entry it reports. *)
Theorem predict_image_confidence_error
    image_bytes w top_probs top_ids w' i prediction :
  ranks image_bytes w top_probs top_ids w' ->
  length top_ids = length top_probs ->
  forall predictions,
    predict_image image_bytes w = (Ok predictions, w') ->
    predictions !! i = Some prediction ->
    exists (c : Q) (id : Z) (b : Q),
      filter (fun p => in_band p.1 = true)
        (before_exit (zip top_probs top_ids)) !! i = Some (Fin c, id) /\
      confidence_of prediction = Some (Fin b) /\
      (- ((1 # 20) + (1 # 70368744177664)) <= b - 100 * c)%Q /\
      (b - 100 * c <= (1 # 20) + (1 # 70368744177664))%Q.
Proof.
  intros Hr Hlen predictions Hp Hi.
  rewrite (predict_image_scan _ _ _ _ _ Hr Hlen), scan_before_exit in Hp.
  injection Hp as <-. rewrite list_lookup_fmap in Hi.
  destruct (filter _ _ !! i) as [[conf id]|] eqn:Hk; [|discriminate].
  injection Hi as <-.
  assert (Hb : in_band conf = true).
  { apply list_elem_of_lookup_2 in Hk.
    apply list_elem_of_filter in Hk as [Hk _]. exact Hk. }
  destruct (in_band_Fin conf Hb) as [c ->].
  destruct (conf_percent_error c Hb) as (b & Eb & B1 & B2).
  exists c, id, b. rewrite confidence_of_entry. cbn [fst].
  rewrite Eb. auto.
Qed.

Lemma predict_no_field request w :
  files request !! "file"%string = None ->
  predict request w = (Ok (failure "No file uploaded"), w).
Proof.
  intros Hf. unfold predict, try_except.
  replace (bool_decide ("file"%string ∈ dom (files request))) with false;
    [reflexivity|].
  symmetry. apply bool_decide_eq_false. apply not_elem_of_dom, Hf.
Qed.

Lemma predict_empty_name request w file :
  files request !! "file"%string = Some file ->
  filename file = ""%string ->
  predict request w = (Ok (failure "No file selected"), w).
Proof.
  intros Hf Hn. unfold predict, try_except.
  rewrite (lookup_file_in _ _ Hf). cbn [negb].
  unfold mbind, M_bind, lift, getitem. rewrite Hf, Hn. reflexivity.
Qed.

(** X6: the handler never raises and always answers with status 200; its
    body is the success body carrying the list [predict_image] returned on
    the uploaded bytes, or a failure body with a message. *)
Theorem predict_always_answers request w :
  exists resp,
    (predict request w).1 = Ok resp /\ status resp = 200 /\
    ((exists file predictions,
        files request !! "file"%string = Some file /\
        filename file <> ""%string /\
        (predict_image (read file) w).1 = Ok predictions /\
        json_body resp =
        VDict [("success"%string, VBool true);
               ("predictions"%string, VList predictions)]) \/
     (exists msg,
        json_body resp = VDict [("success"%string, VBool false);
                                ("error"%string, VStr msg)])).
Proof.
  destruct (files request !! "file"%string) as [file|] eqn:Hf.
  - destruct (decide (filename file = ""%string)) as [Hn | Hn].
    + rewrite (predict_empty_name _ _ _ Hf Hn).
      eexists. split; [reflexivity|]. split; [reflexivity|].
      right. eexists. reflexivity.
    + rewrite (predict_upload _ _ _ Hf Hn).
      destruct (predict_image (read file) w) as [[ps|e] w1] eqn:Hp.
      * eexists. split; [reflexivity|]. split; [reflexivity|].
        left. exists file, ps.
        repeat split; [exact Hn | rewrite Hp; reflexivity].
      * eexists. split; [reflexivity|]. split; [reflexivity|].
        right. eexists. reflexivity.
  - rewrite (predict_no_field _ _ Hf).
    eexists. split; [reflexivity|]. split; [reflexivity|].
    right. eexists. reflexivity.
Qed.

Lemma predict_image_invoked image_bytes w :
  invoked (predict_image image_bytes w).2 = invoked w ++ [image_bytes].
Proof.
  unfold predict_image, predict_image_try, try_except, lift, mbind, M_bind,
    model_call, enter, io_BytesIO. cbn.
  destruct (fresh_id (ids w)) as [a rest]. cbn.
  destruct (Image_open_convert _) as [img|]; [|reflexivity].
  destruct (preprocess img) as [t|]; [|reflexivity].
  destruct (training (model w)).
  - destruct (forward_train _ _ t) as [[[outputs|] ws] g]; [|reflexivity].
    destruct (softmax0 outputs) as [probs|]; [|reflexivity].
    destruct (topk probs 50%nat) as [[tp ti]|]; [|reflexivity].
    destruct (threshold_loop tp ti _ _); reflexivity.
  - destruct (forward_eval _ t) as [outputs|]; [|reflexivity].
    destruct (softmax0 outputs) as [probs|]; [|reflexivity].
    destruct (topk probs 50%nat) as [[tp ti]|]; [|reflexivity].
    destruct (threshold_loop tp ti _ _); reflexivity.
Qed.

(** X7: a request enters [predict_image] once, with the bytes of the
    uploaded file, when it carries a file with a name, and not at all
    otherwise. *)
Theorem predict_enters_once request w :
  invoked (predict request w).2 =
  invoked w ++
  match files request !! "file"%string with
  | Some file => if String.eqb (filename file) "" then [] else [read file]
  | None => []
  end.
Proof.
  destruct (files request !! "file"%string) as [file|] eqn:Hf.
  - destruct (String.eqb (filename file) "") eqn:Hn.
    + apply String.eqb_eq in Hn.
      rewrite (predict_empty_name _ _ _ Hf Hn), app_nil_r. reflexivity.
    + apply String.eqb_neq in Hn. rewrite (predict_upload _ _ _ Hf Hn).
      pose proof (predict_image_invoked (read file) w) as Hi.
      destruct (predict_image (read file) w) as [[ps|e] w1]; exact Hi.
  - rewrite (predict_no_field _ _ Hf), app_nil_r. reflexivity.
Qed.

(** In evaluation mode the handler repeats a successful answer in any
    state of the process with the same model, answers a failure with a
    failure, and touches neither model nor generator. *)
Lemma predict_eval_mode request w w' :
  decodes_by_content ->
  training (model w) = false -> model w' = model w ->
  (forall predictions,
     (predict request w).1 =
     Ok (jsonify (VDict [("success"%string, VBool true);
                         ("predictions"%string, VList predictions)])) ->
     (predict request w').1 =
     Ok (jsonify (VDict [("success"%string, VBool true);
                         ("predictions"%string, VList predictions)]))) /\
  (forall msg,
     (predict request w).1 = Ok (failure msg) ->
     exists msg', (predict request w').1 = Ok (failure msg')) /\
  model (predict request w).2 = model w /\
  rng (predict request w).2 = rng w.
Proof.
  intros Hlaw Ht Hm.
  destruct (files request !! "file"%string) as [file|] eqn:Hf.
  - destruct (decide (filename file = ""%string)) as [Hn | Hn].
    + rewrite !(predict_empty_name _ _ _ Hf Hn). cbn. eauto 6.
    + rewrite !(predict_upload _ _ _ Hf Hn).
      destruct (predict_image_eval_mode (read file) w w' Hlaw Ht Hm)
        as (E & F & M1 & R1).
      destruct (predict_image (read file) w) as [[ps|e] w1]; cbn in *.
      * rewrite (surjective_pairing (predict_image (read file) w')).
        rewrite (E ps eq_refl). cbn.
        repeat split; [auto | discriminate | exact M1 | exact R1].
      * destruct (F e eq_refl) as [e' He'].
        rewrite (surjective_pairing (predict_image (read file) w')).
        rewrite He'. cbn.
        repeat split; [discriminate | eauto | exact M1 | exact R1].
  - rewrite !(predict_no_field _ _ Hf). cbn. eauto 6.
Qed.

(** X8: served from the model as the script loads it, the application
    keeps its model and its random generator through every request, and
    answers each request as it would have answered it first: the same
    predictions where it succeeded, a failure where it failed (the text of
    a decode error names the buffer and may differ).  Requests do not
    influence one another. *)
Theorem served_requests_independent w0 w :
  decodes_by_content -> load_model = Ok (model w0) -> served_from w0 w ->
  model w = model w0 /\ rng w = rng w0 /\
  (forall request predictions,
     (predict request w0).1 =
     Ok (jsonify (VDict [("success"%string, VBool true);
                         ("predictions"%string, VList predictions)])) ->
     (predict request w).1 =
     Ok (jsonify (VDict [("success"%string, VBool true);
                         ("predictions"%string, VList predictions)]))) /\
  (forall request msg,
     (predict request w0).1 = Ok (failure msg) ->
     exists msg', (predict request w).1 = Ok (failure msg')).
Proof.
  intros Hlaw Hload Hs. apply load_model_eval in Hload.
  assert (Hinv : model w = model w0 /\ rng w = rng w0).
  { induction Hs as [|w request Hs [IHm IHr]]; [auto|].
    assert (Ht : training (model w) = false) by (rewrite IHm; exact Hload).
    destruct (predict_eval_mode request w w Hlaw Ht eq_refl)
      as (_ & _ & M1 & R1).
    split; congruence. }
  destruct Hinv as [Hm Hr]. split; [exact Hm|]. split; [exact Hr|].
  split.
  - intros request. apply (predict_eval_mode request w0 w Hlaw Hload Hm).
  - intros request. apply (predict_eval_mode request w0 w Hlaw Hload Hm).
Qed.

(** X9: an upload whose highest-ranked probability is below 0.40 is no
    error: the handler answers success with an empty list. *)
Theorem predict_nothing_above_min
    request w file top_probs top_ids w' conf :
  files request !! "file"%string = Some file ->
  filename file <> ""%string ->
  ranks (read file) w top_probs top_ids w' ->
  top_probs !! 0%nat = Some conf -> flt conf MIN_CONFIDENCE = true ->
  predict request w =
  (Ok (jsonify (VDict [("success"%string, VBool true);
                       ("predictions"%string, VList [])])), w').
Proof.
  intros Hf Hn Hr Hc Hl. rewrite (predict_upload _ _ _ Hf Hn).
  rewrite (predict_image_ranks _ _ _ _ _ Hr).
  destruct top_probs as [|c tp]; [discriminate|]. cbn [length seq].
  rewrite (threshold_loop_break _ _ _ _ _ _ Hc Hl). reflexivity.
Qed.

End HandlerFacts.

(** * The page and the order of the script *)

Section ScriptFacts.

Context `{Libraries} `{Page}.

(** X10: [HTML_TEMPLATE] is assigned after the [app.run] of line 104.
    Run as a script, the module serves with the name unbound: every
    [GET /] raises [NameError] in [index] and is answered with status 500.
    Imported, the module is executed to its end, and [index] answers 200
    with the rendered template. *)
Theorem index_needs_the_whole_module dunder_name environ run :
  run_module dunder_name environ = Ok run ->
  match run with
  | Served port ns =>
      dunder_name = "__main__"%string /\
      index ns = Raise (mkException "name 'HTML_TEMPLATE' is not defined") /\
      flask_status (index ns) = 500
  | Imported ns =>
      dunder_name <> "__main__"%string /\
      index ns =
      (html ← render_template_string HTML_TEMPLATE_text;
       mret (mkResponse 200 (VStr html)))
  end.
Proof.
  unfold run_module, mbind, result_bind, mret, result_ret.
  destruct load_model as [m|]; [|discriminate].
  destruct (String.eqb dunder_name "__main__") eqn:Hn.
  - apply String.eqb_eq in Hn.
    destruct (environ !! "PORT"%string) as [s|].
    + destruct (int_of_str s) as [port|]; [|discriminate].
      intros [= <-]. auto.
    + intros [= <-]. auto.
  - apply String.eqb_neq in Hn. intros [= <-]. auto.
Qed.

End ScriptFacts.

(** * Display names *)

Lemma imagenet_classes_labels_distinct :
  Forall (fun p : string * string =>
            Forall (fun q : string * string => p.2 = q.2 -> p.1 = q.1)
              imagenet_classes_items)
    imagenet_classes_items.
Proof.
  apply (bool_decide_unpack _). vm_compute. reflexivity.
Qed.

Lemma imagenet_classes_labels_no_placeholder :
  Forall (fun p : string * string => String.prefix "Class " p.2 = false)
    imagenet_classes_items.
Proof.
  apply (bool_decide_unpack _). vm_compute. reflexivity.
Qed.

Lemma placeholder_prefix (k : string) (class_id : string) :
  String.prefix "Class " (k, "Class " +:+ class_id).2 = true.
Proof. destruct class_id; reflexivity. Qed.

(** X11: no two class indices are shown under one name: the labels of the
    table are distinct, none of them reads like a placeholder, and the
    placeholder spells the index. *)
Theorem class_name_of_injective (a b : Z) :
  class_name_of (str_int a) = class_name_of (str_int b) -> a = b.
Proof.
  intros E. apply (inj pretty). change (str_int a = str_int b).
  revert E. generalize (str_int a) (str_int b). intros ka kb.
  unfold class_name_of, dict_get.
  destruct (imagenet_classes !! ka) as [va|] eqn:Ha,
    (imagenet_classes !! kb) as [vb|] eqn:Hb.
  - intros <-.
    apply elem_of_list_to_map_2 in Ha, Hb.
    pose proof imagenet_classes_labels_distinct as Hd.
    rewrite Forall_forall in Hd. specialize (Hd _ Ha).
    rewrite Forall_forall in Hd. apply (Hd _ Hb). reflexivity.
  - intros ->. apply elem_of_list_to_map_2 in Ha.
    pose proof imagenet_classes_labels_no_placeholder as Hp.
    rewrite Forall_forall in Hp. specialize (Hp _ Ha).
    rewrite placeholder_prefix in Hp. discriminate.
  - intros <-. apply elem_of_list_to_map_2 in Hb.
    pose proof imagenet_classes_labels_no_placeholder as Hp.
    rewrite Forall_forall in Hp. specialize (Hp _ Hb).
    rewrite placeholder_prefix in Hp. discriminate.
  - intros E. cbn in E. injection E as E. exact E.
Qed.

(** * The further statements on concrete uploads *)

Lemma predict_image_prefix_filter_witness :
  @predict_image demo_raw demo_mixed_image demo_raw_world =
  (Ok [VDict [("class"%string, VStr "tench");
              ("confidence"%string, VFloat (Fin 50))]],
   demo_raw_after demo_mixed_image).
Proof.
  apply (@predict_image_prefix_filter demo_raw demo_mixed_image
           demo_raw_world (demo_raw_ranking demo_mixed_image).1
           (demo_raw_ranking demo_mixed_image).2
           (demo_raw_after demo_mixed_image)).
  - ranked_by_computation.
  - reflexivity.
Defined.

Lemma predict_image_at_most_two_witness :
  exists predictions,
    @predict_image demo demo_split_image demo_world =
    (Ok predictions, demo_after demo_split_image) /\
    (length predictions <= 2)%nat.
Proof.
  apply (@predict_image_at_most_two demo demo_split_image demo_world
           demo_split_scores (demo_ranking demo_split_image).2
           (demo_after demo_split_image)).
  - ranked_by_computation.
  - reflexivity.
  - unfold demo_split_scores. cbn [app repeat].
    repeat (apply Forall_cons_2; [discriminate|]). apply Forall_nil_2.
  - reflexivity.
Defined.

Lemma predict_image_confidences_descending_witness :
  exists predictions confs,
    @predict_image demo demo_image demo_world =
    (Ok predictions, demo_after demo_image) /\
    confidence_of <$> predictions = Some <$> confs /\
    descending confs.
Proof.
  apply (@predict_image_confidences_descending demo demo_image demo_world
           (demo_ranking demo_image).1 (demo_ranking demo_image).2
           (demo_after demo_image)).
  - ranked_by_computation.
  - reflexivity.
  - apply descendingb_descending. vm_compute. reflexivity.
Defined.

Lemma predict_image_confidence_error_witness :
  exists (c : Q) (id : Z) (b : Q),
    filter (fun p => in_band p.1 = true)
      (before_exit (zip (demo_ranking demo_image).1
                      (demo_ranking demo_image).2)) !! 0%nat =
    Some (Fin c, id) /\
    confidence_of (VDict [("class"%string, VStr "Class 31");
                          ("confidence"%string, VFloat (Fin 90))]) =
    Some (Fin b) /\
    (- ((1 # 20) + (1 # 70368744177664)) <= b - 100 * c)%Q /\
    (b - 100 * c <= (1 # 20) + (1 # 70368744177664))%Q.
Proof.
  apply (@predict_image_confidence_error demo demo_image demo_world
           (demo_ranking demo_image).1 (demo_ranking demo_image).2
           (demo_after demo_image) 0%nat _
           ltac:(ranked_by_computation) eq_refl
           [VDict [("class"%string, VStr "Class 31");
                   ("confidence"%string, VFloat (Fin 90))];
            VDict [("class"%string, VStr "Class 30");
                   ("confidence"%string, VFloat (Fin 45))]]).
  - vm_compute. reflexivity.
  - reflexivity.
Defined.

Lemma served_requests_independent_witness :
  (@predict demo (demo_upload "cat.png" demo_image)
     (@predict demo (demo_upload "junk.bin" []) demo_world).2).1 =
  Ok (jsonify
        (VDict [("success"%string, VBool true);
                ("predictions"%string,
                 VList [VDict [("class"%string, VStr "Class 31");
                               ("confidence"%string, VFloat (Fin 90))];
                        VDict [("class"%string, VStr "Class 30");
                               ("confidence"%string, VFloat (Fin 45))]])])).
Proof.
  apply (proj1 (proj2 (proj2 (@served_requests_independent demo demo_world
           (@predict demo (demo_upload "junk.bin" []) demo_world).2
           demo_decodes_by_content eq_refl
           (served_request _ _ _ (served_start _)))))).
  vm_compute. reflexivity.
Defined.

Lemma predict_nothing_above_min_witness :
  @predict demo (demo_upload "dim.png" demo_dim_image) demo_world =
  (Ok (jsonify (VDict [("success"%string, VBool true);
                       ("predictions"%string, VList [])])),
   demo_after demo_dim_image).
Proof.
  apply (@predict_nothing_above_min demo
           (demo_upload "dim.png" demo_dim_image) demo_world
           (mkFile "dim.png" demo_dim_image)
           (demo_ranking demo_dim_image).1 (demo_ranking demo_dim_image).2
           (demo_after demo_dim_image) (Fin (16 # 100))).
  - vm_compute. reflexivity.
  - discriminate.
  - ranked_by_computation.
  - reflexivity.
  - vm_compute. reflexivity.
Defined.

Lemma index_needs_the_whole_module_witness :
  "__main__"%string = "__main__"%string /\
  @index demo demo_page (@mkNamespace demo (mkModule false tt) None) =
  Raise (mkException "name 'HTML_TEMPLATE' is not defined") /\
  @flask_status
    (@index demo demo_page (@mkNamespace demo (mkModule false tt) None)) =
  500.
Proof.
  exact (@index_needs_the_whole_module demo demo_page "__main__" ∅
           (@Served demo 5000 (@mkNamespace demo (mkModule false tt) None))
           eq_refl).
Defined.

Lemma class_name_of_injective_witness : 282 = 282.
Proof.
  apply (class_name_of_injective 282 282). reflexivity.
Defined.
